(** * ConvertPointCloud: the command-line point-cloud conversion tool

    A shallow embedding of [src/Tools/ConvertPointCloud.cpp] (functions
    [PrintHelp], [convert] and [main]) and the properties of its stage
    pipeline and batch driver.

    - A C++ [double] is a primitive binary64 float ([PrimFloat.float]); its
      arithmetic and comparisons are the IEEE 754 ones, related to
      [SpecFloat] by the specifications of [FloatAxioms].
    - [Eigen::Vector3d] is a record of three doubles, [Eigen::VectorXd] a
      list of doubles.
    - The functions that [Core/Core.h] and [IO/IO.h] declare are the
      fields of the class [Collaborators]: the tool is glue code around
      them, and every statement below holds for all their implementations.
    - Effects are explicit: a computation takes the state of the file
      system and returns a value, the new file system and the sequence of
      calls it made to the console, the file system and the geometry
      library, in program order.  The option-parsing and path-string
      helpers only read their arguments and are not recorded.
    - The library functions are total here: a call that throws or aborts
      the process is outside the model. *)

From Stdlib Require Import ZArith List Ascii String Bool Lia Floats Sorted.
Import ListNotations.

Local Open Scope Z_scope.

(** ** Numbers and vectors *)

Definition double := float.

(** [std::numeric_limits<double>::max()] and [lowest()]. *)
Definition numeric_limits_max : double := 0x1.fffffffffffffp+1023%float.
Definition numeric_limits_lowest : double := (- numeric_limits_max)%float.

(** [(int)n] for a [size_t] n: the low 32 bits, read as two's complement. *)
Definition cast_int (n : Z) : Z := (n + 2 ^ 31) mod 2 ^ 32 - 2 ^ 31.

Record Vector3d : Type := mkVector3d { c0 : double; c1 : double; c2 : double }.

Definition VectorXd : Type := list double.

(** [v(i)] on a dynamic vector. *)
Definition coeff (v : VectorXd) (i : nat) : double := nth i v 0%float.

(** [Eigen::Vector3d dir(direction)], for a [direction] of size 3. *)
Definition Vector3d_of_VectorXd (v : VectorXd) : Vector3d :=
  mkVector3d (coeff v 0) (coeff v 1) (coeff v 2).

(** [a.dot(b)]: the sum of the coefficient-wise products, each product
    and each sum rounded to a double, added from the first coefficient
    on. *)
Definition dot (a b : Vector3d) : double :=
  (c0 a * c0 b + c1 a * c1 b + c2 a * c2 b)%float.

(** [v *= s]: every coefficient is multiplied by the scalar. *)
Definition scale (v : Vector3d) (s : double) : Vector3d :=
  mkVector3d (c0 v * s)%float (c1 v * s)%float (c2 v * s)%float.

(** [-v], coefficient-wise. *)
Definition negate (v : Vector3d) : Vector3d :=
  mkVector3d (- c0 v)%float (- c1 v)%float (- c2 v)%float.

(** ** Point clouds *)

Record PointCloud : Type := mkPointCloud {
  points_ : list Vector3d;
  normals_ : list Vector3d;
  colors_ : list Vector3d
}.

(** [std::make_shared<PointCloud>()]. *)
Definition empty_PointCloud : PointCloud := mkPointCloud [] [] [].

Definition set_normals (pc : PointCloud) (ns : list Vector3d) : PointCloud :=
  mkPointCloud (points_ pc) ns (colors_ pc).

Inductive KDTreeSearchParam : Type :=
| KDTreeSearchParamRadius (radius : double).

(** ** Calls to the outside *)

Inductive Call : Type :=
| call_printf (text : string)
| call_PrintDebug (format : string) (args : list double)
| call_PrintInfo (format : string) (args : list Z)
| call_PrintError (format : string)
| call_SetVerbosityLevel (level : Z)
| call_CreatePointCloudFromFile (filename : string)
| call_WritePointCloud (filename : string) (pointcloud : PointCloud)
    (write_ascii compressed : bool)
| call_CropPointCloud (min_bound max_bound : Vector3d)
| call_VoxelDownSample (voxel_size : double)
| call_EstimateNormals (orientation_reference : option Vector3d)
    (search_param : KDTreeSearchParam)
| call_FileExists (filename : string)
| call_DirectoryExists (directory : string)
| call_MakeDirectoryHierarchy (directory : string)
| call_ListFilesInDirectory (directory : string).

(** ** The library the tool is linked against

    [World] is the state of the file system.  The option-parsing helpers
    take [argv] alone: [argc] is its length.  Output parameters of the C++
    functions are results here; the [bool] results that the tool ignores
    are left out. *)

Class Collaborators (World : Type) : Type := {
  ProgramOptionExists : list string -> string -> bool;
  ProgramOptionExistsAny : list string -> list string -> bool;
  GetProgramOptionAsInt : list string -> string -> Z -> Z;
  GetProgramOptionAsDouble : list string -> string -> double -> double;
  GetProgramOptionAsEigenVectorXd : list string -> string -> VectorXd;
  FileExists : World -> string -> bool;
  DirectoryExists : World -> string -> bool;
  MakeDirectoryHierarchy : string -> World -> World;
  ListFilesInDirectory : World -> string -> list string;
  GetRegularizedDirectoryName : string -> string;
  GetFileNameWithoutDirectory : string -> string;
  CreatePointCloudFromFile : World -> string -> PointCloud;
  WritePointCloud : string -> PointCloud -> bool -> bool -> World -> World;
  HasNormals : PointCloud -> bool;
  (* CropPointCloud(input, min_bound, max_bound, output) *)
  CropPointCloud : PointCloud -> Vector3d -> Vector3d -> PointCloud -> PointCloud;
  (* VoxelDownSample(input, voxel_size, output) *)
  VoxelDownSample : PointCloud -> double -> PointCloud -> PointCloud;
  (* EstimateNormals(cloud, search_param) *)
  EstimateNormals : PointCloud -> KDTreeSearchParam -> PointCloud;
  (* EstimateNormals(cloud, orientation_reference, search_param) *)
  EstimateNormalsRef : PointCloud -> Vector3d -> KDTreeSearchParam -> PointCloud
}.

(** ** Computations *)

Record Outcome (World A : Type) : Type := mkOutcome {
  value : A;
  world : World;
  calls : list Call
}.
Arguments mkOutcome {World A} _ _ _.
Arguments value {World A} _.
Arguments world {World A} _.
Arguments calls {World A} _.

Definition M (World A : Type) : Type := World -> Outcome World A.

Definition ret {World A : Type} (a : A) : M World A :=
  fun w => mkOutcome a w [].

Definition bind {World A B : Type} (m : M World A) (f : A -> M World B)
  : M World B :=
  fun w =>
    let r1 := m w in
    let r2 := f (value r1) (world r1) in
    mkOutcome (value r2) (world r2) (calls r1 ++ calls r2).

(** A call that leaves the file system as it is. *)
Definition emit {World A : Type} (c : Call) (a : A) : M World A :=
  fun w => mkOutcome a w [c].

(** A call that reads the file system. *)
Definition query {World A : Type} (c : Call) (f : World -> A) : M World A :=
  fun w => mkOutcome (f w) w [c].

(** A call that changes the file system. *)
Definition update {World : Type} (c : Call) (f : World -> World) : M World unit :=
  fun w => mkOutcome tt (f w) [c].

Declare Scope monad_scope.
Delimit Scope monad_scope with monad.
Notation "x <- m ;; k" := (bind m (fun x => k))
  (at level 61, m at next level, right associativity) : monad_scope.
Notation "m ;; k" := (bind m (fun _ => k))
  (at level 61, right associativity) : monad_scope.

Local Open Scope monad_scope.
Local Open Scope string_scope.

(** [for (const auto &x : xs) body(x);] *)
Fixpoint for_each {World A : Type} (xs : list A) (body : A -> M World unit)
  : M World unit :=
  match xs with
  | [] => ret tt
  | x :: rest => body x ;; for_each rest body
  end.

(** ** The program *)

Definition nl : string := String (Ascii.ascii_of_nat 10) EmptyString.

Definition usage : list string := [
  "Usage:" ++ nl;
  "    > ConvertPointCloud source_file target_file [options]" ++ nl;
  "    > ConvertPointCloud source_directory target_directory [options]" ++ nl;
  "      Read point cloud from source file and convert it to target file." ++ nl;
  nl;
  "Options (listed in the order of execution priority):" ++ nl;
  "    --help, -h                : Print help information." ++ nl;
  "    --verbose n               : Set verbose level (0-4)." ++ nl;
  "    --clip_x_min x0           : Clip points with x coordinate < x0." ++ nl;
  "    --clip_x_max x1           : Clip points with x coordinate > x1." ++ nl;
  "    --clip_y_min y0           : Clip points with y coordinate < y0." ++ nl;
  "    --clip_y_max y1           : Clip points with y coordinate > y1." ++ nl;
  "    --clip_z_min z0           : Clip points with z coordinate < z0." ++ nl;
  "    --clip_z_max z1           : Clip points with z coordinate > z1." ++ nl;
  "    --voxel_sample voxel_size : Downsample the point cloud with a voxel." ++ nl;
  "    --estimate_normals radius : Estimate normals using a search neighborhood of" ++ nl;
  "                                radius. The normals are oriented w.r.t. the" ++ nl;
  "                                original normals of the pointcloud if they" ++ nl;
  "                                exist. Otherwise, they are oriented towards -Z" ++ nl;
  "                                direction." ++ nl;
  "    --orient_normals [x,y,z]  : Orient the normals w.r.t the direction [x,y,z]." ++ nl
].

Definition clip_options : list string :=
  ["--clip_x_min"; "--clip_x_max"; "--clip_y_min"; "--clip_y_max";
   "--clip_z_min"; "--clip_z_max"].

(** The local variables of [convert] that the stages update. *)
Record Locals : Type := mkLocals {
  pointcloud_ptr : PointCloud;
  processed : bool
}.

Section Program.

Context {World : Type} {lib : Collaborators World}.

Definition PrintHelp : M World unit :=
  for_each usage (fun line => emit (call_printf line) tt).

(** The [// clip] block of [convert]. *)
Definition clip (argv : list string) (l : Locals) : M World Locals :=
  if ProgramOptionExistsAny argv clip_options then
    let min_bound := mkVector3d
      (GetProgramOptionAsDouble argv "--clip_x_min" numeric_limits_lowest)
      (GetProgramOptionAsDouble argv "--clip_y_min" numeric_limits_lowest)
      (GetProgramOptionAsDouble argv "--clip_z_min" numeric_limits_lowest) in
    let max_bound := mkVector3d
      (GetProgramOptionAsDouble argv "--clip_x_max" numeric_limits_max)
      (GetProgramOptionAsDouble argv "--clip_y_max" numeric_limits_max)
      (GetProgramOptionAsDouble argv "--clip_z_max" numeric_limits_max) in
    clip_ptr <- emit (call_CropPointCloud min_bound max_bound)
      (CropPointCloud (pointcloud_ptr l) min_bound max_bound empty_PointCloud) ;;
    ret (mkLocals clip_ptr true)
  else ret l.

(** The [// voxel_downsample] block. *)
Definition voxel_downsample (argv : list string) (l : Locals) : M World Locals :=
  let voxel_size := GetProgramOptionAsDouble argv "--voxel_sample" 0%float in
  if (0 <? voxel_size)%float then
    emit (call_PrintDebug ("Downsample point cloud with voxel size %.4f." ++ nl)
            [voxel_size]) tt ;;
    downsample_ptr <- emit (call_VoxelDownSample voxel_size)
      (VoxelDownSample (pointcloud_ptr l) voxel_size empty_PointCloud) ;;
    ret (mkLocals downsample_ptr true)
  else ret l.

(** The [// estimate_normals] block. *)
Definition estimate_normals (argv : list string) (l : Locals) : M World Locals :=
  let radius := GetProgramOptionAsDouble argv "--estimate_normals" 0%float in
  if (0 <? radius)%float then
    emit (call_PrintDebug ("Estimate normals with search radius %.4f." ++ nl)
            [radius]) tt ;;
    pc <- (if HasNormals (pointcloud_ptr l) then
             emit (call_EstimateNormals None (KDTreeSearchParamRadius radius))
               (EstimateNormals (pointcloud_ptr l) (KDTreeSearchParamRadius radius))
           else
             let reference := mkVector3d 0%float 0%float (-1)%float in
             emit (call_EstimateNormals (Some reference)
                     (KDTreeSearchParamRadius radius))
               (EstimateNormalsRef (pointcloud_ptr l) reference
                  (KDTreeSearchParamRadius radius))) ;;
    ret (mkLocals pc true)
  else ret l.

(** The body of the loop over [normals_]. *)
Definition orient_normal (dir normal : Vector3d) : Vector3d :=
  if (dot normal dir <? 0)%float then scale normal (-1)%float else normal.

(** The [// orient_normals] block. *)
Definition orient_normals (argv : list string) (l : Locals) : M World Locals :=
  let direction := GetProgramOptionAsEigenVectorXd argv "--orient_normals" in
  if (List.length direction =? 3)%nat && HasNormals (pointcloud_ptr l) then
    emit (call_PrintDebug ("Orient normals to [%.2f, %.2f, %.2f]." ++ nl)
            [coeff direction 0; coeff direction 1; coeff direction 2]) tt ;;
    let dir := Vector3d_of_VectorXd direction in
    ret (mkLocals (set_normals (pointcloud_ptr l)
                     (map (orient_normal dir) (normals_ (pointcloud_ptr l))))
                  (processed l))
  else ret l.

Definition convert (argv : list string) (file_in file_out : string)
  : M World unit :=
  pc <- query (call_CreatePointCloudFromFile file_in)
          (fun w => CreatePointCloudFromFile w file_in) ;;
  let point_num_in := List.length (points_ pc) in
  l <- clip argv (mkLocals pc false) ;;
  l <- voxel_downsample argv l ;;
  l <- estimate_normals argv l ;;
  l <- orient_normals argv l ;;
  let point_num_out := List.length (points_ (pointcloud_ptr l)) in
  (if processed l then
     emit (call_PrintInfo ("Processed point cloud from %d points to %d points." ++ nl)
             [cast_int (Z.of_nat point_num_in); cast_int (Z.of_nat point_num_out)]) tt
   else ret tt) ;;
  update (call_WritePointCloud file_out (pointcloud_ptr l) false true)
    (WritePointCloud file_out (pointcloud_ptr l) false true).

(** [argv[i]]. *)
Definition arg (argv : list string) (i : nat) : string := nth i argv "".

(** The test that sends [main] to the usage text. *)
Definition wants_help (argv : list string) : bool :=
  (Z.of_nat (List.length argv) <? 3)%Z
  || ProgramOptionExists argv "--help"
  || ProgramOptionExists argv "-h".

Definition main (argv : list string) : M World Z :=
  if wants_help argv then
    PrintHelp ;; ret 0
  else
    let verbose := GetProgramOptionAsInt argv "--verbose" 2 in
    emit (call_SetVerbosityLevel verbose) tt ;;
    is_file <- query (call_FileExists (arg argv 1))
                 (fun w => FileExists w (arg argv 1)) ;;
    (if is_file : bool then
       convert argv (arg argv 1) (arg argv 2)
     else
       is_dir <- query (call_DirectoryExists (arg argv 1))
                   (fun w => DirectoryExists w (arg argv 1)) ;;
       if is_dir : bool then
         update (call_MakeDirectoryHierarchy (arg argv 2))
           (MakeDirectoryHierarchy (arg argv 2)) ;;
         filenames <- query (call_ListFilesInDirectory (arg argv 1))
                        (fun w => ListFilesInDirectory w (arg argv 1)) ;;
         for_each filenames (fun fn =>
           convert argv fn
             (GetRegularizedDirectoryName (arg argv 2)
                ++ GetFileNameWithoutDirectory fn))
       else
         emit (call_PrintError ("File or directory does not exist." ++ nl)) tt) ;;
    ret 1.

End Program.

(** ** Observations on a run *)

Fixpoint filter_map {A B : Type} (f : A -> option B) (l : list A) : list B :=
  match l with
  | [] => []
  | a :: rest =>
      match f a with
      | Some b => b :: filter_map f rest
      | None => filter_map f rest
      end
  end.

Inductive Stage : Type :=
| StageClip
| StageVoxelDownSample
| StageEstimateNormals
| StageOrientNormals.

Definition orient_format : string :=
  "Orient normals to [%.2f, %.2f, %.2f]." ++ nl.

(** The call by which each stage shows in the trace: the three library
    calls, and the announcement that opens the orientation loop. *)
Definition stage_of_call (c : Call) : option Stage :=
  match c with
  | call_CropPointCloud _ _ => Some StageClip
  | call_VoxelDownSample _ => Some StageVoxelDownSample
  | call_EstimateNormals _ _ => Some StageEstimateNormals
  | call_PrintDebug format _ =>
      if String.eqb format orient_format then Some StageOrientNormals else None
  | _ => None
  end.

Definition stages_run (cs : list Call) : list Stage :=
  filter_map stage_of_call cs.

Definition stage_index (s : Stage) : nat :=
  match s with
  | StageClip => 0
  | StageVoxelDownSample => 1
  | StageEstimateNormals => 2
  | StageOrientNormals => 3
  end.

Inductive FileAccess : Type :=
| Loaded (filename : string)
| Written (filename : string).

Definition access_of_call (c : Call) : option FileAccess :=
  match c with
  | call_CreatePointCloudFromFile f => Some (Loaded f)
  | call_WritePointCloud f _ _ _ => Some (Written f)
  | _ => None
  end.

Definition file_accesses (cs : list Call) : list FileAccess :=
  filter_map access_of_call cs.

Definition is_PrintInfo (c : Call) : bool :=
  match c with
  | call_PrintInfo _ _ => true
  | _ => false
  end.

(** Calls that load, write, create or list something in the file system, or
    run a stage. *)
Definition is_work (c : Call) : bool :=
  match c with
  | call_CreatePointCloudFromFile _ | call_WritePointCloud _ _ _ _
  | call_CropPointCloud _ _ | call_VoxelDownSample _ | call_EstimateNormals _ _
  | call_MakeDirectoryHierarchy _ | call_ListFilesInDirectory _ => true
  | call_PrintDebug format _ => String.eqb format orient_format
  | _ => false
  end.

Section Activation.

Context {World : Type} {lib : Collaborators World}.

(** The activation condition of each stage. *)
Definition clip_active (argv : list string) : bool :=
  ProgramOptionExistsAny argv clip_options.

Definition voxel_active (argv : list string) : bool :=
  (0 <? GetProgramOptionAsDouble argv "--voxel_sample" 0)%float.

Definition estimate_active (argv : list string) : bool :=
  (0 <? GetProgramOptionAsDouble argv "--estimate_normals" 0)%float.

Definition orient_active (argv : list string) (pc : PointCloud) : bool :=
  (List.length (GetProgramOptionAsEigenVectorXd argv "--orient_normals") =? 3)%nat
  && HasNormals pc.

(** The cloud that reaches the orientation stage. *)
Definition cloud_before_orient (argv : list string) (pc : PointCloud) (w : World)
  : PointCloud :=
  let l1 := value (clip argv (mkLocals pc false) w) in
  let l2 := value (voxel_downsample argv l1 w) in
  pointcloud_ptr (value (estimate_normals argv l2 w)).

(** The bound that clipping uses for an axis side: the option's value when
    the option is supplied, the default otherwise. *)
Definition clip_bound (argv : list string) (option : string) (default : double)
  : double :=
  if ProgramOptionExists argv option
  then GetProgramOptionAsDouble argv option default
  else default.

(** The locals of [convert] after the four blocks. *)
Definition locals_after_stages (argv : list string) (pc : PointCloud) (w : World)
  : Locals :=
  let l1 := value (clip argv (mkLocals pc false) w) in
  let l2 := value (voxel_downsample argv l1 w) in
  let l3 := value (estimate_normals argv l2 w) in
  value (orient_normals argv l3 w).

(** The calls of the four blocks. *)
Definition stage_calls (argv : list string) (pc : PointCloud) (w : World)
  : list Call :=
  let l0 := mkLocals pc false in
  let l1 := value (clip argv l0 w) in
  let l2 := value (voxel_downsample argv l1 w) in
  let l3 := value (estimate_normals argv l2 w) in
  calls (clip argv l0 w) ++ calls (voxel_downsample argv l1 w)
  ++ calls (estimate_normals argv l2 w) ++ calls (orient_normals argv l3 w).

(** The informational line of [convert], when the flag is set. *)
Definition info_calls (point_num_in : nat) (l : Locals) : list Call :=
  if processed l then
    [call_PrintInfo ("Processed point cloud from %d points to %d points." ++ nl)
       [cast_int (Z.of_nat point_num_in);
        cast_int (Z.of_nat (List.length (points_ (pointcloud_ptr l))))]]
  else [].

End Activation.

(** Modelled from the spec: the bodies of the option-parsing helpers
    ([ProgramOptionExistsAny], [GetProgramOptionAsDouble]) are not part of
    the sources.  The spec resolves the clip group "as present if any of
    the six axis-bound keys is supplied", and has "each missing bound"
    take its default. *)
Class OptionContract {World : Type} (lib : Collaborators World) : Prop := {
  exists_any_spec : forall argv options,
    ProgramOptionExistsAny argv options
    = existsb (ProgramOptionExists argv) options;
  missing_double_spec : forall argv option default,
    ProgramOptionExists argv option = false ->
    GetProgramOptionAsDouble argv option default = default
}.

(** Modelled from the spec: [CropPointCloud] is not part of the sources.
    The spec keeps "only points whose coordinates lie within [min_bound,
    max_bound] on all three axes (inclusive)"; this is the test for one
    axis. *)
Definition axis_passes (min_bound max_bound x : double) : bool :=
  ((min_bound <=? x) && (x <=? max_bound))%float.

(** ** The pipeline as the specification words it

    These definitions follow the text of the specification (its sections
    3 and 4), not the source: a configuration resolved once from the
    options, a pipeline that takes the configuration, and a driver that
    hands the same configuration to every file.  They are compared with
    [convert] and [main] below. *)

Record PipelineConfig : Type := mkPipelineConfig {
  config_clip : option (Vector3d * Vector3d);
  config_voxel_size : option double;
  config_normal_radius : option double;
  config_orient_direction : option Vector3d;
  config_verbosity : Z
}.

Record ChangeSummary : Type := mkChangeSummary {
  points_before : nat;
  points_after : nat;
  any_stage_executed : bool
}.

Section Resolved.

Context {World : Type} {lib : Collaborators World}.

(** [ResolveConfig(options) -> PipelineConfig]. *)
Definition ResolveConfig (argv : list string) : PipelineConfig :=
  mkPipelineConfig
    (if ProgramOptionExistsAny argv clip_options then
       Some
         (mkVector3d
            (GetProgramOptionAsDouble argv "--clip_x_min" numeric_limits_lowest)
            (GetProgramOptionAsDouble argv "--clip_y_min" numeric_limits_lowest)
            (GetProgramOptionAsDouble argv "--clip_z_min" numeric_limits_lowest),
          mkVector3d
            (GetProgramOptionAsDouble argv "--clip_x_max" numeric_limits_max)
            (GetProgramOptionAsDouble argv "--clip_y_max" numeric_limits_max)
            (GetProgramOptionAsDouble argv "--clip_z_max" numeric_limits_max))
     else None)
    (let size := GetProgramOptionAsDouble argv "--voxel_sample" 0%float in
     if (0 <? size)%float then Some size else None)
    (let radius := GetProgramOptionAsDouble argv "--estimate_normals" 0%float in
     if (0 <? radius)%float then Some radius else None)
    (let direction := GetProgramOptionAsEigenVectorXd argv "--orient_normals" in
     if (List.length direction =? 3)%nat
     then Some (Vector3d_of_VectorXd direction) else None)
    (GetProgramOptionAsInt argv "--verbose" 2).

Definition ClipStage (config : PipelineConfig) (cloud : PointCloud)
  : M World (PointCloud * bool) :=
  match config_clip config with
  | Some (min_bound, max_bound) =>
      emit (call_CropPointCloud min_bound max_bound)
        (CropPointCloud cloud min_bound max_bound empty_PointCloud, true)
  | None => ret (cloud, false)
  end.

Definition VoxelStage (config : PipelineConfig) (cloud : PointCloud)
  : M World (PointCloud * bool) :=
  match config_voxel_size config with
  | Some size =>
      emit (call_PrintDebug ("Downsample point cloud with voxel size %.4f." ++ nl)
              [size]) tt ;;
      emit (call_VoxelDownSample size)
        (VoxelDownSample cloud size empty_PointCloud, true)
  | None => ret (cloud, false)
  end.

Definition EstimateStage (config : PipelineConfig) (cloud : PointCloud)
  : M World (PointCloud * bool) :=
  match config_normal_radius config with
  | Some radius =>
      emit (call_PrintDebug ("Estimate normals with search radius %.4f." ++ nl)
              [radius]) tt ;;
      if HasNormals cloud then
        emit (call_EstimateNormals None (KDTreeSearchParamRadius radius))
          (EstimateNormals cloud (KDTreeSearchParamRadius radius), true)
      else
        emit (call_EstimateNormals (Some (mkVector3d 0 0 (-1))%float)
                (KDTreeSearchParamRadius radius))
          (EstimateNormalsRef cloud (mkVector3d 0 0 (-1))%float
             (KDTreeSearchParamRadius radius), true)
  | None => ret (cloud, false)
  end.

Definition OrientStage (config : PipelineConfig) (cloud : PointCloud)
  : M World PointCloud :=
  match config_orient_direction config with
  | Some direction =>
      if HasNormals cloud then
        emit (call_PrintDebug orient_format
                [c0 direction; c1 direction; c2 direction]) tt ;;
        ret (set_normals cloud
               (map (fun normal =>
                       if (dot normal direction <? 0)%float
                       then negate normal else normal)
                    (normals_ cloud)))
      else ret cloud
  | None => ret cloud
  end.

(** [RunPipeline(cloud, config) -> (cloud', ChangeSummary)]. *)
Definition RunPipeline (cloud : PointCloud) (config : PipelineConfig)
  : M World (PointCloud * ChangeSummary) :=
  r1 <- ClipStage config cloud ;;
  r2 <- VoxelStage config (fst r1) ;;
  r3 <- EstimateStage config (fst r2) ;;
  cloud' <- OrientStage config (fst r3) ;;
  ret (cloud',
       mkChangeSummary (List.length (points_ cloud))
         (List.length (points_ cloud'))
         (snd r1 || snd r2 || snd r3)).

(** One file: load, run the pipeline, report, write. *)
Definition ConvertFile (config : PipelineConfig) (file_in file_out : string)
  : M World unit :=
  cloud <- query (call_CreatePointCloudFromFile file_in)
             (fun w => CreatePointCloudFromFile w file_in) ;;
  r <- RunPipeline cloud config ;;
  (if any_stage_executed (snd r) then
     emit (call_PrintInfo
             ("Processed point cloud from %d points to %d points." ++ nl)
             [cast_int (Z.of_nat (points_before (snd r)));
              cast_int (Z.of_nat (points_after (snd r)))]) tt
   else ret tt) ;;
  update (call_WritePointCloud file_out (fst r) false true)
    (WritePointCloud file_out (fst r) false true).

(** [Run(inputPath, outputPath, config)]. *)
Definition Run (inputPath outputPath : string) (config : PipelineConfig)
  : M World unit :=
  is_file <- query (call_FileExists inputPath)
               (fun w => FileExists w inputPath) ;;
  if is_file : bool then ConvertFile config inputPath outputPath
  else
    is_dir <- query (call_DirectoryExists inputPath)
                (fun w => DirectoryExists w inputPath) ;;
    if is_dir : bool then
      update (call_MakeDirectoryHierarchy outputPath)
        (MakeDirectoryHierarchy outputPath) ;;
      entries <- query (call_ListFilesInDirectory inputPath)
                   (fun w => ListFilesInDirectory w inputPath) ;;
      for_each entries (fun entry =>
        ConvertFile config entry
          (GetRegularizedDirectoryName outputPath
             ++ GetFileNameWithoutDirectory entry))
    else
      emit (call_PrintError ("File or directory does not exist." ++ nl)) tt.

(** The tool with the configuration resolved once, before any file. *)
Definition main_resolved_once (argv : list string) : M World Z :=
  if wants_help argv then PrintHelp ;; ret 0
  else
    let config := ResolveConfig argv in
    emit (call_SetVerbosityLevel (config_verbosity config)) tt ;;
    Run (arg argv 1) (arg argv 2) config ;;
    ret 1.

End Resolved.

(** ** Doubles up to the sign of zero *)

Module IEEE.

(** [-1.0] as a binary64 value. *)
Definition minus_one : spec_float := S754_finite true 4503599627370496 (-52).

(** Equality of two doubles up to the sign of zero. *)
Definition zeq (x y : spec_float) : Prop :=
  match x, y with
  | S754_zero _, S754_zero _ => True
  | _, _ => x = y
  end.

End IEEE.

(** ** A small library to run the tool on examples

    A file system held in memory and option helpers that look [argv] up.
    Numbers are read from a table of literals.  These stand-ins are used
    only to evaluate the program on concrete inputs; no statement about
    [convert] or [main] depends on them. *)

Module Sample.

Record FileSystem : Type := mkFileSystem {
  files : list (string * PointCloud);
  directories : list string
}.

Fixpoint lookup (fs : list (string * PointCloud)) (name : string)
  : option PointCloud :=
  match fs with
  | [] => None
  | (n, pc) :: rest => if String.eqb n name then Some pc else lookup rest name
  end.

Fixpoint store (fs : list (string * PointCloud)) (name : string) (pc : PointCloud)
  : list (string * PointCloud) :=
  match fs with
  | [] => [(name, pc)]
  | (n, old) :: rest =>
      if String.eqb n name then (n, pc) :: rest else (n, old) :: store rest name pc
  end.

Fixpoint has_slash (s : string) : bool :=
  match s with
  | EmptyString => false
  | String c rest => Ascii.eqb c "/"%char || has_slash rest
  end.

Fixpoint basename (s : string) : string :=
  match s with
  | EmptyString => EmptyString
  | String c rest =>
      if has_slash rest then basename rest
      else if Ascii.eqb c "/"%char then rest else s
  end.

Fixpoint ends_with_slash (s : string) : bool :=
  match s with
  | EmptyString => false
  | String c EmptyString => Ascii.eqb c "/"%char
  | String _ rest => ends_with_slash rest
  end.

Definition regularized (d : string) : string :=
  if ends_with_slash d then d else d ++ "/".

(** The argument that follows [option] in [argv], or the empty string. *)
Fixpoint option_value (argv : list string) (option : string) : string :=
  match argv with
  | [] => ""
  | a :: rest =>
      if String.eqb a option then
        match rest with
        | [] => ""
        | v :: _ => v
        end
      else option_value rest option
  end.

Definition strtod (s : string) : option double :=
  if String.eqb s "0" then Some 0%float
  else if String.eqb s "1" then Some 1%float
  else if String.eqb s "-1" then Some (-1)%float
  else if String.eqb s "0.5" then Some 0.5%float
  else if String.eqb s "0.25" then Some 0.25%float
  else if String.eqb s "nan" then Some nan
  else None.

Definition strtol (s : string) : option Z :=
  if String.eqb s "0" then Some 0
  else if String.eqb s "1" then Some 1
  else if String.eqb s "2" then Some 2
  else if String.eqb s "3" then Some 3
  else if String.eqb s "4" then Some 4
  else None.

Definition vector_of_string (s : string) : VectorXd :=
  if String.eqb s "[0,0,1]" then [0; 0; 1]%float
  else if String.eqb s "[0,0,-1]" then [0; 0; -1]%float
  else if String.eqb s "[0x1p+1023,0x1p+1023,0]"
       then [0x1p+1023; 0x1p+1023; 0]%float
  else if String.eqb s "[0,1]" then [0; 1]%float
  else [].

Definition within (min_bound max_bound p : Vector3d) : bool :=
  axis_passes (c0 min_bound) (c0 max_bound) (c0 p)
  && axis_passes (c1 min_bound) (c1 max_bound) (c1 p)
  && axis_passes (c2 min_bound) (c2 max_bound) (c2 p).

(** The elements of [xs] at the positions where [keep] holds. *)
Fixpoint select {A : Type} (keep : list bool) (xs : list A) : list A :=
  match keep, xs with
  | k :: keep', x :: xs' => if k then x :: select keep' xs' else select keep' xs'
  | _, _ => []
  end.

Definition has_normals (pc : PointCloud) : bool :=
  (0 <? List.length (points_ pc))%nat
  && (List.length (normals_ pc) =? List.length (points_ pc))%nat.

Definition crop (input : PointCloud) (min_bound max_bound : Vector3d)
  (output : PointCloud) : PointCloud :=
  let keep := map (within min_bound max_bound) (points_ input) in
  mkPointCloud (select keep (points_ input)) (select keep (normals_ input))
    (select keep (colors_ input)).

#[export] Instance library : Collaborators FileSystem := {
  ProgramOptionExists argv option := existsb (String.eqb option) argv;
  ProgramOptionExistsAny argv options :=
    existsb (fun option => existsb (String.eqb option) argv) options;
  GetProgramOptionAsInt argv option default :=
    match strtol (option_value argv option) with
    | Some n => n
    | None => default
    end;
  GetProgramOptionAsDouble argv option default :=
    match strtod (option_value argv option) with
    | Some x => x
    | None => default
    end;
  GetProgramOptionAsEigenVectorXd argv option :=
    vector_of_string (option_value argv option);
  FileExists fs name :=
    match lookup (files fs) name with Some _ => true | None => false end;
  DirectoryExists fs name := existsb (String.eqb name) (directories fs);
  MakeDirectoryHierarchy name fs :=
    if existsb (String.eqb name) (directories fs) then fs
    else mkFileSystem (files fs) (directories fs ++ [name]);
  ListFilesInDirectory fs name :=
    filter (fun f => String.eqb (name ++ "/" ++ basename f) f)
      (map fst (files fs));
  GetRegularizedDirectoryName := regularized;
  GetFileNameWithoutDirectory := basename;
  CreatePointCloudFromFile fs name :=
    match lookup (files fs) name with
    | Some pc => pc
    | None => empty_PointCloud
    end;
  WritePointCloud name pc _ _ fs :=
    mkFileSystem (store (files fs) name pc) (directories fs);
  HasNormals := has_normals;
  CropPointCloud := crop;
  VoxelDownSample input _ _ := input;
  EstimateNormals cloud _ :=
    if has_normals cloud then cloud
    else set_normals cloud (map (fun _ => (mkVector3d 0 0 1)%float) (points_ cloud));
  EstimateNormalsRef cloud reference _ :=
    set_normals cloud (map (fun _ => reference) (points_ cloud))
}.

Definition p (x y z : double) : Vector3d := mkVector3d x y z.

(** Three points on the x axis, without normals. *)
Definition cloud_a : PointCloud :=
  mkPointCloud [p (-1) 0 0; p 0.5 0 0; p 2 0 0]%float [] [].

(** Two points with normals, one of them facing down. *)
Definition cloud_b : PointCloud :=
  mkPointCloud [p 0 0 0; p 1 0 0]%float [p 0 0 1; p 0 0 (-1)]%float [].

(** One point whose normal is not of unit length. *)
Definition cloud_c : PointCloud :=
  mkPointCloud [p 0 0 0]%float [p 2 (-2) 0]%float [].

(** One point with an undefined y coordinate. *)
Definition cloud_d : PointCloud :=
  mkPointCloud [p 0.5 nan 0]%float [] [].

Definition disk : FileSystem :=
  mkFileSystem
    [("in/a.ply", cloud_a); ("in/b.ply", cloud_b); ("c.ply", cloud_c);
     ("d.ply", cloud_d)]
    ["in"].

Definition argv_batch : list string :=
  ["ConvertPointCloud"; "in"; "out"; "--voxel_sample"; "0.5";
   "--estimate_normals"; "0.25"].

Definition argv_missing : list string :=
  ["ConvertPointCloud"; "nowhere"; "out"].

Definition argv_clip : list string :=
  ["ConvertPointCloud"; "in/a.ply"; "out.ply"; "--clip_x_min"; "0";
   "--clip_x_max"; "1"].

Definition argv_clip_x_min : list string :=
  ["ConvertPointCloud"; "d.ply"; "out.ply"; "--clip_x_min"; "0"].

Definition argv_estimate_orient : list string :=
  ["ConvertPointCloud"; "in/a.ply"; "out.ply"; "--estimate_normals"; "0.25";
   "--orient_normals"; "[0,0,1]"].

Definition argv_orient : list string :=
  ["ConvertPointCloud"; "in/a.ply"; "out.ply"; "--orient_normals"; "[0,0,1]"].

Definition argv_plain : list string :=
  ["ConvertPointCloud"; "in/b.ply"; "out.ply"].

Definition argv_empty_batch : list string :=
  ["ConvertPointCloud"; "empty"; "out"].

Definition disk_with_empty : FileSystem :=
  mkFileSystem (files disk) ["in"; "empty"].

Definition argv_orient_large : list string :=
  ["ConvertPointCloud"; "c.ply"; "out.ply"; "--orient_normals";
   "[0x1p+1023,0x1p+1023,0]"].

End Sample.

(** ** More observations on a run *)

Definition is_SetVerbosityLevel (c : Call) : bool :=
  match c with
  | call_SetVerbosityLevel _ => true
  | _ => false
  end.

(** Calls that read or change the file system. *)
Definition touches_file_system (c : Call) : bool :=
  match c with
  | call_CreatePointCloudFromFile _ | call_WritePointCloud _ _ _ _
  | call_FileExists _ | call_DirectoryExists _
  | call_MakeDirectoryHierarchy _ | call_ListFilesInDirectory _ => true
  | _ => false
  end.

(** Calls that test, create or list a directory. *)
Definition is_directory_call (c : Call) : bool :=
  match c with
  | call_DirectoryExists _ | call_MakeDirectoryHierarchy _
  | call_ListFilesInDirectory _ => true
  | _ => false
  end.

(** The calls that the four stage blocks make. *)
Definition is_stage_call (c : Call) : bool :=
  match c with
  | call_PrintDebug _ _ | call_CropPointCloud _ _ | call_VoxelDownSample _
  | call_EstimateNormals _ _ => true
  | _ => false
  end.

(** The clouds handed to [WritePointCloud], in order. *)
Definition written_clouds (cs : list Call) : list PointCloud :=
  filter_map (fun c =>
                match c with
                | call_WritePointCloud _ pc _ _ => Some pc
                | _ => None
                end) cs.



Module IEEEZero.

(** A double that is a zero of either sign, or NaN. *)
Definition nan_or_zero (x : spec_float) : Prop :=
  match x with
  | S754_zero _ | S754_nan => True
  | _ => False
  end.

End IEEEZero.


(** * Properties *)

Local Close Scope string_scope.

(** ** Arithmetic of doubles *)

Module IEEEFacts.
Import IEEE.

Lemma Prim2SF_minus_one : Prim2SF (-1)%float = minus_one.
Proof. reflexivity. Qed.

Lemma Prim2SF_zero : Prim2SF 0%float = S754_zero false.
Proof. reflexivity. Qed.

Lemma binary_round_aux_opp (s : bool) (m e : Z) (l : location) :
  binary_round_aux prec emax (negb s) m e l
  = SFopp (binary_round_aux prec emax s m e l).
Proof.
  unfold binary_round_aux.
  destruct (shr_fexp prec emax m e l) as [mrs' e'].
  destruct (shr_fexp prec emax _ e' loc_Exact) as [mrs'' e''].
  destruct (shr_m mrs''); try reflexivity.
  destruct (e'' <=? emax - prec); reflexivity.
Qed.

Lemma SFmul_opp_l (x y : spec_float) :
  SFmul prec emax (SFopp x) y = SFopp (SFmul prec emax x y).
Proof.
  destruct x as [sx|sx| |sx mx ex], y as [sy|sy| |sy my ey];
    cbn [SFmul SFopp]; try reflexivity;
    try (destruct sx, sy; reflexivity).
  rewrite <- binary_round_aux_opp. destruct sx, sy; reflexivity.
Qed.

(** Shifting the mantissa left by 52 bits and back loses nothing. *)
Lemma iter_shr_1_52 (m : positive) :
  iter_pos shr_1 52 (Build_shr_record (Z.pos (4503599627370496 * m)) false false)
  = Build_shr_record (Z.pos m) false false.
Proof. reflexivity. Qed.

Lemma digits2_pos_shift_52 (m : positive) :
  Z.pos (digits2_pos (4503599627370496 * m)) = Z.pos (digits2_pos m) + 52.
Proof. cbn [Pos.mul digits2_pos]. lia. Qed.

Lemma shr_fexp_canonical (m : positive) (e : Z) :
  fexp prec emax (Z.pos (digits2_pos m) + e) = e ->
  shr_fexp prec emax (Z.pos m) e loc_Exact
  = (Build_shr_record (Z.pos m) false false, e).
Proof.
  intros Hc. unfold shr_fexp, Zdigits2. rewrite Hc, Z.sub_diag. reflexivity.
Qed.

Lemma shr_fexp_shift_52 (m : positive) (e : Z) :
  fexp prec emax (Z.pos (digits2_pos m) + e) = e ->
  shr_fexp prec emax (Z.pos (m * 4503599627370496)) (e + -52) loc_Exact
  = (Build_shr_record (Z.pos m) false false, e).
Proof.
  intros Hc. unfold shr_fexp, Zdigits2.
  rewrite Pos.mul_comm, digits2_pos_shift_52.
  replace (Z.pos (digits2_pos m) + 52 + (e + -52))
    with (Z.pos (digits2_pos m) + e) by lia.
  rewrite Hc.
  replace (e - (e + -52)) with 52 by lia.
  unfold shr, shr_record_of_loc. rewrite iter_shr_1_52.
  f_equal. lia.
Qed.

(** The product of a double and -1.0 is exact: it is the opposite. *)
Lemma SFmul_minus_one (x : spec_float) :
  valid_binary x = true ->
  SFmul prec emax x minus_one = SFopp x.
Proof.
  destruct x as [s|s| |s m e]; cbn [SFmul SFopp minus_one SpecFloat.valid_binary].
  1, 2: intros _; destruct s; reflexivity.
  1: reflexivity.
  unfold bounded, canonical_mantissa. intros H.
  apply andb_prop in H. destruct H as [Hc He].
  apply Z.eqb_eq in Hc.
  replace (xorb s true) with (negb s) by (destruct s; reflexivity).
  unfold binary_round_aux.
  rewrite (shr_fexp_shift_52 m e Hc).
  cbn [shr_m loc_of_shr_record round_nearest_even].
  rewrite (shr_fexp_canonical m e Hc).
  cbn [shr_m]. rewrite He. reflexivity.
Qed.

Lemma zeq_refl (x : spec_float) : zeq x x.
Proof. destruct x; simpl; auto. Qed.

Lemma zeq_of_eq (x y : spec_float) : x = y -> zeq x y.
Proof. intros ->. apply zeq_refl. Qed.

Lemma zeq_trans (x y z : spec_float) : zeq x y -> zeq y z -> zeq x z.
Proof.
  destruct x, y; simpl; try discriminate; try (intros H; inversion H; subst);
    auto; destruct z; simpl; auto; try discriminate.
Qed.

Lemma binary_round_opp (s : bool) (m : positive) (e : Z) :
  binary_round prec emax (negb s) m e = SFopp (binary_round prec emax s m e).
Proof.
  unfold binary_round.
  destruct (shl_align m e _) as [mz ez].
  apply binary_round_aux_opp.
Qed.

Lemma binary_normalize_opp (m e : Z) :
  zeq (binary_normalize prec emax (- m) e false)
      (SFopp (binary_normalize prec emax m e false)).
Proof.
  destruct m as [|p|p]; cbn [Z.opp binary_normalize].
  - exact I.
  - apply zeq_of_eq. apply (binary_round_opp false).
  - apply zeq_of_eq. rewrite (binary_round_opp false).
    destruct (binary_round prec emax false p e) as [[]|[]| |[] ? ?]; reflexivity.
Qed.

Lemma cond_Zopp_negb (s : bool) (a : Z) : cond_Zopp (negb s) a = - cond_Zopp s a.
Proof. destruct s; simpl; lia. Qed.

(** Rounding to nearest is symmetric: the sum of the opposites is the
    opposite of the sum, up to the sign of a zero sum. *)
Lemma SFadd_opp (x y : spec_float) :
  zeq (SFadd prec emax (SFopp x) (SFopp y)) (SFopp (SFadd prec emax x y)).
Proof.
  destruct x as [sx|sx| |sx mx ex], y as [sy|sy| |sy my ey];
    cbn [SFadd SFopp]; try exact I; try apply zeq_refl;
    try (destruct sx, sy; simpl; auto; fail).
  rewrite !cond_Zopp_negb, <- Z.opp_add_distr.
  apply binary_normalize_opp.
Qed.

Lemma SFadd_zeq (x x' y y' : spec_float) :
  zeq x x' -> zeq y y' -> zeq (SFadd prec emax x y) (SFadd prec emax x' y').
Proof.
  intros Hx Hy.
  destruct x as [sx|sx| |sx mx ex], x' as [sx'|sx'| |sx' mx' ex'];
    simpl in Hx; try discriminate; try (inversion Hx; subst; clear Hx);
    destruct y as [sy|sy| |sy my ey], y' as [sy'|sy'| |sy' my' ey'];
    simpl in Hy; try discriminate; try (inversion Hy; subst; clear Hy);
    try apply zeq_refl.
  destruct sx, sx', sy, sy'; exact I.
Qed.

Lemma SFcompare_zeq_l (x x' y : spec_float) :
  zeq x x' -> SFcompare x y = SFcompare x' y.
Proof.
  destruct x, x'; simpl; intros H; try discriminate; try (inversion H; subst);
    reflexivity.
Qed.

(** The opposite of a double below zero is not below zero. *)
Lemma SFltb_opp_zero (x : spec_float) (sz : bool) :
  SFltb x (S754_zero sz) = true -> SFltb (SFopp x) (S754_zero sz) = false.
Proof.
  unfold SFltb. destruct x as [s|[]| |[] m e]; simpl; auto; discriminate.
Qed.

(** A double that is neither NaN nor below zero is at least zero. *)
Lemma SFleb_zero_of_not_ltb (x : spec_float) (sz : bool) :
  x <> S754_nan ->
  SFltb x (S754_zero sz) = false -> SFleb (S754_zero sz) x = true.
Proof.
  unfold SFltb, SFleb.
  destruct x as [s|[]| |[] m e]; simpl; auto; try discriminate.
Qed.

Lemma is_nan_false (x : float) : is_nan x = false -> Prim2SF x <> S754_nan.
Proof.
  unfold is_nan. rewrite eqb_spec. intros H E. rewrite E in H. discriminate.
Qed.

Lemma is_nan_true (x : float) : Prim2SF x = S754_nan -> is_nan x = true.
Proof.
  unfold is_nan. rewrite eqb_spec. intros ->. reflexivity.
Qed.

Lemma mul_minus_one (x : float) : (x * -1 = - x)%float.
Proof.
  apply Prim2SF_inj.
  rewrite mul_spec, opp_spec, Prim2SF_minus_one.
  apply SFmul_minus_one, Prim2SF_valid.
Qed.

End IEEEFacts.

(** ** Vectors *)

Lemma scale_minus_one (v : Vector3d) : scale v (-1)%float = negate v.
Proof.
  unfold scale, negate. now rewrite !IEEEFacts.mul_minus_one.
Qed.

(** The dot product of the negated vector is the opposite dot product, up
    to the sign of zero. *)
Lemma dot_negate (n d : Vector3d) :
  IEEE.zeq (Prim2SF (dot (negate n) d)) (SFopp (Prim2SF (dot n d))).
Proof.
  unfold dot, negate. cbn [c0 c1 c2].
  rewrite !add_spec, !mul_spec, !opp_spec.
  unfold SF64add, SF64mul.
  rewrite !IEEEFacts.SFmul_opp_l.
  eapply IEEEFacts.zeq_trans.
  - apply IEEEFacts.SFadd_zeq.
    + apply IEEEFacts.SFadd_opp.
    + apply IEEEFacts.zeq_refl.
  - apply IEEEFacts.SFadd_opp.
Qed.

Lemma orient_normal_cases (dir n : Vector3d) :
  orient_normal dir n = if (dot n dir <? 0)%float then negate n else n.
Proof.
  unfold orient_normal. now rewrite scale_minus_one.
Qed.

(** After the loop body, the dot product with the direction is not below
    zero. *)
Lemma orient_normal_not_negative (dir n : Vector3d) :
  (dot (orient_normal dir n) dir <? 0)%float = false.
Proof.
  rewrite orient_normal_cases.
  destruct (dot n dir <? 0)%float eqn:E; [|exact E].
  rewrite ltb_spec in *. rewrite IEEEFacts.Prim2SF_zero in *.
  unfold SFltb at 1.
  rewrite (IEEEFacts.SFcompare_zeq_l _ _ _ (dot_negate n dir)).
  apply (IEEEFacts.SFltb_opp_zero _ false E).
Qed.

Lemma orient_normal_nonnegative (dir n : Vector3d) :
  is_nan (dot (orient_normal dir n) dir) = false ->
  (0 <=? dot (orient_normal dir n) dir)%float = true.
Proof.
  intros Hnan. pose proof (orient_normal_not_negative dir n) as H.
  rewrite ltb_spec in H. rewrite leb_spec.
  rewrite IEEEFacts.Prim2SF_zero in *.
  apply IEEEFacts.SFleb_zero_of_not_ltb; [|exact H].
  now apply IEEEFacts.is_nan_false.
Qed.

(** ** Traces *)

Lemma filter_map_app {A B : Type} (f : A -> option B) (l1 l2 : list A) :
  filter_map f (l1 ++ l2) = filter_map f l1 ++ filter_map f l2.
Proof.
  induction l1 as [|a l1 IH]; simpl; [reflexivity|].
  destruct (f a); simpl; now rewrite IH.
Qed.

Lemma stages_run_app (l1 l2 : list Call) :
  stages_run (l1 ++ l2) = stages_run l1 ++ stages_run l2.
Proof. apply filter_map_app. Qed.

Lemma file_accesses_app (l1 l2 : list Call) :
  file_accesses (l1 ++ l2) = file_accesses l1 ++ file_accesses l2.
Proof. apply filter_map_app. Qed.

Section Blocks.

Context {World : Type} {lib : Collaborators World}.
Implicit Types (argv : list string) (l : Locals) (w : World).

(** The stages read and write memory only: the file system is untouched. *)
Lemma clip_world argv l w : world (clip argv l w) = w.
Proof. unfold clip. now destruct (ProgramOptionExistsAny _ _). Qed.

Lemma voxel_downsample_world argv l w : world (voxel_downsample argv l w) = w.
Proof. unfold voxel_downsample. now destruct (_ <? _)%float. Qed.

Lemma estimate_normals_world argv l w : world (estimate_normals argv l w) = w.
Proof.
  unfold estimate_normals. destruct (_ <? _)%float; [|reflexivity].
  now destruct (HasNormals _).
Qed.

Lemma orient_normals_world argv l w : world (orient_normals argv l w) = w.
Proof. unfold orient_normals. now destruct (_ && _). Qed.

(** They do not look at the file system either. *)
Lemma clip_indep argv l w w' :
  value (clip argv l w) = value (clip argv l w')
  /\ calls (clip argv l w) = calls (clip argv l w').
Proof. unfold clip. now destruct (ProgramOptionExistsAny _ _). Qed.

Lemma voxel_downsample_indep argv l w w' :
  value (voxel_downsample argv l w) = value (voxel_downsample argv l w')
  /\ calls (voxel_downsample argv l w) = calls (voxel_downsample argv l w').
Proof. unfold voxel_downsample. now destruct (_ <? _)%float. Qed.

Lemma estimate_normals_indep argv l w w' :
  value (estimate_normals argv l w) = value (estimate_normals argv l w')
  /\ calls (estimate_normals argv l w) = calls (estimate_normals argv l w').
Proof.
  unfold estimate_normals. destruct (_ <? _)%float; [|now split].
  now destruct (HasNormals _).
Qed.

Lemma clip_stages argv l w :
  stages_run (calls (clip argv l w))
  = if clip_active argv then [StageClip] else [].
Proof. unfold clip, clip_active. now destruct (ProgramOptionExistsAny _ _). Qed.

Lemma voxel_downsample_stages argv l w :
  stages_run (calls (voxel_downsample argv l w))
  = if voxel_active argv then [StageVoxelDownSample] else [].
Proof. unfold voxel_downsample, voxel_active. now destruct (_ <? _)%float. Qed.

Lemma estimate_normals_stages argv l w :
  stages_run (calls (estimate_normals argv l w))
  = if estimate_active argv then [StageEstimateNormals] else [].
Proof.
  unfold estimate_normals, estimate_active. destruct (_ <? _)%float; [|reflexivity].
  now destruct (HasNormals _).
Qed.

Lemma orient_normals_stages argv l w :
  stages_run (calls (orient_normals argv l w))
  = if orient_active argv (pointcloud_ptr l) then [StageOrientNormals] else [].
Proof. unfold orient_normals, orient_active. now destruct (_ && _). Qed.

(** The flag after each block. *)
Lemma clip_processed argv l w :
  processed (value (clip argv l w)) = clip_active argv || processed l.
Proof. unfold clip, clip_active. now destruct (ProgramOptionExistsAny _ _). Qed.

Lemma voxel_downsample_processed argv l w :
  processed (value (voxel_downsample argv l w)) = voxel_active argv || processed l.
Proof. unfold voxel_downsample, voxel_active. now destruct (_ <? _)%float. Qed.

Lemma estimate_normals_processed argv l w :
  processed (value (estimate_normals argv l w))
  = estimate_active argv || processed l.
Proof.
  unfold estimate_normals, estimate_active. destruct (_ <? _)%float; [|reflexivity].
  now destruct (HasNormals _).
Qed.

Lemma orient_normals_processed argv l w :
  processed (value (orient_normals argv l w)) = processed l.
Proof. unfold orient_normals. now destruct (_ && _). Qed.

(** [convert], one call after the other. *)
Lemma convert_calls argv file_in file_out w :
  let pc := CreatePointCloudFromFile w file_in in
  let l := locals_after_stages argv pc w in
  calls (convert argv file_in file_out w)
  = [call_CreatePointCloudFromFile file_in]
    ++ stage_calls argv pc w
    ++ info_calls (List.length (points_ pc)) l
    ++ [call_WritePointCloud file_out (pointcloud_ptr l) false true].
Proof.
  intros pc l. unfold convert, bind, query. cbn [value world calls].
  rewrite !clip_world, !voxel_downsample_world, !estimate_normals_world,
    !orient_normals_world.
  fold pc. unfold stage_calls, info_calls. fold l.
  unfold locals_after_stages in l. fold l.
  rewrite <- !app_assoc. cbn [app]. do 5 f_equal.
  destruct (processed l); reflexivity.
Qed.

Lemma convert_world argv file_in file_out w :
  world (convert argv file_in file_out w)
  = WritePointCloud file_out
      (pointcloud_ptr
         (locals_after_stages argv (CreatePointCloudFromFile w file_in) w))
      false true w.
Proof.
  unfold convert, bind, query. cbn [value world calls].
  rewrite !clip_world, !voxel_downsample_world, !estimate_normals_world,
    !orient_normals_world.
  destruct (processed _); reflexivity.
Qed.

End Blocks.

(** ** The stage pipeline *)

Lemma stage_list_facts (a b c d : bool) (ran : list Stage) :
  ran = (if a then [StageClip] else [])
        ++ (if b then [StageVoxelDownSample] else [])
        ++ (if c then [StageEstimateNormals] else [])
        ++ (if d then [StageOrientNormals] else []) ->
  (In StageClip ran <-> a = true)
  /\ (In StageVoxelDownSample ran <-> b = true)
  /\ (In StageEstimateNormals ran <-> c = true)
  /\ (In StageOrientNormals ran <-> d = true)
  /\ StronglySorted lt (map stage_index ran).
Proof.
  intros ->.
  destruct a, b, c, d; cbn [app In map stage_index];
    (repeat split; intros;
     try reflexivity;
     try (repeat match goal with
                 | H : _ \/ _ |- _ => destruct H
                 | H : False |- _ => destruct H
                 end; discriminate);
     try (now auto 6);
     try (repeat constructor)).
Qed.

Section Pipeline.

Context {World : Type} {lib : Collaborators World}.
Implicit Types (argv : list string) (l : Locals) (w : World).

Lemma convert_stages argv file_in file_out w :
  stages_run (calls (convert argv file_in file_out w))
  = (if clip_active argv then [StageClip] else [])
    ++ (if voxel_active argv then [StageVoxelDownSample] else [])
    ++ (if estimate_active argv then [StageEstimateNormals] else [])
    ++ (if orient_active argv
             (cloud_before_orient argv (CreatePointCloudFromFile w file_in) w)
        then [StageOrientNormals] else []).
Proof.
  rewrite convert_calls. cbv zeta.
  rewrite !stages_run_app. unfold stage_calls.
  rewrite !stages_run_app.
  rewrite clip_stages, voxel_downsample_stages, estimate_normals_stages,
    orient_normals_stages.
  unfold info_calls. fold (cloud_before_orient argv (CreatePointCloudFromFile w file_in) w).
  destruct (processed _); cbn [stages_run filter_map stage_of_call app];
    rewrite ?app_nil_r; reflexivity.
Qed.

(** C1, as amended.  For every input and every combination of options,
    [convert] runs its stages in the order clip, voxel-downsample,
    estimate-normals, orient-normals; each stage runs exactly when its own
    activation condition holds (any clip option supplied; voxel size > 0;
    radius > 0; a 3-component direction and a cloud that has normals when
    the stage is reached).  The first three conditions are read off the
    options alone; the fourth is tested on the cloud as the earlier stages
    left it. *)
Theorem convert_stage_order argv file_in file_out w :
  stages_run (calls (convert argv file_in file_out w))
  = (if clip_active argv then [StageClip] else [])
    ++ (if voxel_active argv then [StageVoxelDownSample] else [])
    ++ (if estimate_active argv then [StageEstimateNormals] else [])
    ++ (if orient_active argv
             (cloud_before_orient argv (CreatePointCloudFromFile w file_in) w)
        then [StageOrientNormals] else [])
  /\ (In StageClip (stages_run (calls (convert argv file_in file_out w)))
      <-> ProgramOptionExistsAny argv clip_options = true)
  /\ (In StageVoxelDownSample (stages_run (calls (convert argv file_in file_out w)))
      <-> (0 <? GetProgramOptionAsDouble argv "--voxel_sample" 0)%float = true)
  /\ (In StageEstimateNormals (stages_run (calls (convert argv file_in file_out w)))
      <-> (0 <? GetProgramOptionAsDouble argv "--estimate_normals" 0)%float = true)
  /\ (In StageOrientNormals (stages_run (calls (convert argv file_in file_out w)))
      <-> List.length (GetProgramOptionAsEigenVectorXd argv "--orient_normals") = 3%nat
          /\ HasNormals
               (cloud_before_orient argv (CreatePointCloudFromFile w file_in) w)
             = true)
  /\ StronglySorted lt
       (map stage_index (stages_run (calls (convert argv file_in file_out w)))).
Proof.
  pose proof (stage_list_facts _ _ _ _ _ (convert_stages argv file_in file_out w))
    as (H1 & H2 & H3 & H4 & H5).
  split; [apply convert_stages|].
  split; [exact H1|]. split; [exact H2|]. split; [exact H3|].
  split; [|exact H5].
  rewrite H4. unfold orient_active.
  now rewrite andb_true_iff, Nat.eqb_eq.
Qed.

End Pipeline.

Section Stages.

Context {World : Type} {lib : Collaborators World}.
Implicit Types (argv : list string) (l : Locals) (w : World).

Lemma map_orient_normal (dir : Vector3d) (ns : list Vector3d) :
  map (orient_normal dir) ns
  = map (fun n => if (dot n dir <? 0)%float then negate n else n) ns.
Proof. apply map_ext. intros n. apply orient_normal_cases. Qed.

(** The cloud after the orientation block, when the block runs. *)
Lemma orient_normals_runs argv l w :
  orient_active argv (pointcloud_ptr l) = true ->
  value (orient_normals argv l w)
  = mkLocals
      (set_normals (pointcloud_ptr l)
         (map (orient_normal
                 (Vector3d_of_VectorXd
                    (GetProgramOptionAsEigenVectorXd argv "--orient_normals")))
              (normals_ (pointcloud_ptr l))))
      (processed l).
Proof.
  unfold orient_active, orient_normals. intros ->. reflexivity.
Qed.

Lemma orient_normals_skips argv l w :
  orient_active argv (pointcloud_ptr l) = false ->
  orient_normals argv l w = mkOutcome l w [].
Proof.
  unfold orient_active, orient_normals. intros ->. reflexivity.
Qed.

(** C2, as amended.  The orientation stage runs exactly when the option
    [--orient_normals] has 3 components and the cloud has normals.  When it
    runs, every normal whose dot product with the direction is negative is
    replaced by its negation and the other normals are kept; afterwards no
    normal has a negative dot product with the direction: the dot product
    is at least zero, or it is NaN.  When it does not run, the cloud is
    left as it is. *)
Theorem orient_normals_hemisphere argv l w :
  (In StageOrientNormals (stages_run (calls (orient_normals argv l w)))
   <-> List.length (GetProgramOptionAsEigenVectorXd argv "--orient_normals") = 3%nat
       /\ HasNormals (pointcloud_ptr l) = true)
  /\ (orient_active argv (pointcloud_ptr l) = true ->
      normals_ (pointcloud_ptr (value (orient_normals argv l w)))
      = map (fun n =>
               if (dot n (Vector3d_of_VectorXd
                            (GetProgramOptionAsEigenVectorXd argv "--orient_normals"))
                   <? 0)%float
               then negate n else n)
            (normals_ (pointcloud_ptr l))
      /\ Forall (fun n =>
                   let d := dot n (Vector3d_of_VectorXd
                                     (GetProgramOptionAsEigenVectorXd argv
                                        "--orient_normals")) in
                   (d <? 0)%float = false
                   /\ (is_nan d = false -> (0 <=? d)%float = true))
           (normals_ (pointcloud_ptr (value (orient_normals argv l w)))))
  /\ (orient_active argv (pointcloud_ptr l) = false ->
      value (orient_normals argv l w) = l).
Proof.
  split; [|split].
  - rewrite orient_normals_stages. unfold orient_active.
    destruct (_ && _) eqn:E; cbn [In].
    + apply andb_prop in E. destruct E as [E1 E2]. apply Nat.eqb_eq in E1.
      split; [now intros _|now left].
    + split; [tauto|]. intros [E1 E2]. apply Nat.eqb_eq in E1.
      rewrite E1, E2 in E. discriminate.
  - intros H. rewrite (orient_normals_runs _ _ _ H). cbn [pointcloud_ptr set_normals normals_].
    split; [apply map_orient_normal|].
    apply Forall_forall. intros n' Hin. apply in_map_iff in Hin.
    destruct Hin as (n & <- & _). cbv zeta. split.
    + apply orient_normal_not_negative.
    + apply orient_normal_nonnegative.
  - intros H. now rewrite orient_normals_skips.
Qed.

(** C10.  The orientation stage changes nothing but the normals: the
    points, the colors and the number of points are those of the cloud
    before the stage, and every normal is the one before or its negation. *)
Theorem orient_normals_frame argv l w :
  points_ (pointcloud_ptr (value (orient_normals argv l w)))
  = points_ (pointcloud_ptr l)
  /\ colors_ (pointcloud_ptr (value (orient_normals argv l w)))
     = colors_ (pointcloud_ptr l)
  /\ List.length (points_ (pointcloud_ptr (value (orient_normals argv l w))))
     = List.length (points_ (pointcloud_ptr l))
  /\ Forall2 (fun before after => after = before \/ after = negate before)
       (normals_ (pointcloud_ptr l))
       (normals_ (pointcloud_ptr (value (orient_normals argv l w)))).
Proof.
  destruct (orient_active argv (pointcloud_ptr l)) eqn:E.
  - rewrite (orient_normals_runs _ _ _ E).
    cbn [pointcloud_ptr set_normals points_ colors_ normals_].
    repeat split.
    induction (normals_ (pointcloud_ptr l)) as [|n ns IH]; cbn [map];
      constructor; [|exact IH].
    rewrite orient_normal_cases. destruct (_ <? _)%float; auto.
  - rewrite (orient_normals_skips _ _ _ E). cbn [value].
    repeat split.
    induction (normals_ (pointcloud_ptr l)); constructor; auto.
Qed.

(** C4.  When the estimation stage runs (radius > 0): on a cloud that has
    normals the library is called without a reference direction, the
    overload that orients the new normals with respect to the existing
    ones; on a cloud without normals it is called with the reference
    direction (0, 0, -1). *)
Theorem estimate_normals_policy argv l w :
  (0 <? GetProgramOptionAsDouble argv "--estimate_normals" 0)%float = true ->
  let radius := GetProgramOptionAsDouble argv "--estimate_normals" 0%float in
  let param := KDTreeSearchParamRadius radius in
  let reference := (mkVector3d 0 0 (-1))%float in
  (HasNormals (pointcloud_ptr l) = true ->
   stages_run (calls (estimate_normals argv l w)) = [StageEstimateNormals]
   /\ In (call_EstimateNormals None param) (calls (estimate_normals argv l w))
   /\ pointcloud_ptr (value (estimate_normals argv l w))
      = EstimateNormals (pointcloud_ptr l) param)
  /\ (HasNormals (pointcloud_ptr l) = false ->
      stages_run (calls (estimate_normals argv l w)) = [StageEstimateNormals]
      /\ In (call_EstimateNormals (Some reference) param)
           (calls (estimate_normals argv l w))
      /\ pointcloud_ptr (value (estimate_normals argv l w))
         = EstimateNormalsRef (pointcloud_ptr l) reference param).
Proof.
  intros H radius param reference. subst radius param reference.
  unfold estimate_normals. rewrite H.
  split; intros ->; cbn; auto.
Qed.

End Stages.

(** ** The informational line *)

Section Report.

Context {World : Type} {lib : Collaborators World}.
Implicit Types (argv : list string) (l : Locals) (w : World).

Lemma locals_after_stages_processed argv pc w :
  processed (locals_after_stages argv pc w)
  = clip_active argv || voxel_active argv || estimate_active argv.
Proof.
  unfold locals_after_stages.
  rewrite orient_normals_processed, estimate_normals_processed,
    voxel_downsample_processed, clip_processed. cbn [processed].
  destruct (clip_active argv), (voxel_active argv), (estimate_active argv);
    reflexivity.
Qed.

Lemma clip_no_info argv l w : filter is_PrintInfo (calls (clip argv l w)) = [].
Proof. unfold clip. now destruct (ProgramOptionExistsAny _ _). Qed.

Lemma voxel_downsample_no_info argv l w :
  filter is_PrintInfo (calls (voxel_downsample argv l w)) = [].
Proof. unfold voxel_downsample. now destruct (_ <? _)%float. Qed.

Lemma estimate_normals_no_info argv l w :
  filter is_PrintInfo (calls (estimate_normals argv l w)) = [].
Proof.
  unfold estimate_normals. destruct (_ <? _)%float; [|reflexivity].
  now destruct (HasNormals _).
Qed.

Lemma orient_normals_no_info argv l w :
  filter is_PrintInfo (calls (orient_normals argv l w)) = [].
Proof. unfold orient_normals. now destruct (_ && _). Qed.

Lemma convert_info argv file_in file_out w :
  filter is_PrintInfo (calls (convert argv file_in file_out w))
  = info_calls (List.length (points_ (CreatePointCloudFromFile w file_in)))
      (locals_after_stages argv (CreatePointCloudFromFile w file_in) w).
Proof.
  rewrite convert_calls. cbv zeta. unfold stage_calls.
  rewrite !filter_app, clip_no_info, voxel_downsample_no_info,
    estimate_normals_no_info, orient_normals_no_info.
  cbn [filter is_PrintInfo app]. rewrite app_nil_r.
  unfold info_calls. now destruct (processed _).
Qed.

(** C5.  The flag [processed] is set by the clip, voxel-downsample and
    estimate-normals blocks and left alone by the orient-normals block; the
    informational line with the point counts before and after is printed
    exactly when the flag is set.  A run in which only the orientation
    stage executes prints no informational line. *)
Theorem processed_flag_and_info_line argv file_in file_out w :
  (forall l,
     processed (value (clip argv l w))
     = ProgramOptionExistsAny argv clip_options || processed l)
  /\ (forall l,
        processed (value (voxel_downsample argv l w))
        = (0 <? GetProgramOptionAsDouble argv "--voxel_sample" 0)%float
          || processed l)
  /\ (forall l,
        processed (value (estimate_normals argv l w))
        = (0 <? GetProgramOptionAsDouble argv "--estimate_normals" 0)%float
          || processed l)
  /\ (forall l, processed (value (orient_normals argv l w)) = processed l)
  /\ filter is_PrintInfo (calls (convert argv file_in file_out w))
     = (if processed
             (locals_after_stages argv (CreatePointCloudFromFile w file_in) w)
        then
          [call_PrintInfo
             ("Processed point cloud from %d points to %d points." ++ nl)%string
             [cast_int
                (Z.of_nat
                   (List.length (points_ (CreatePointCloudFromFile w file_in))));
              cast_int
                (Z.of_nat
                   (List.length
                      (points_
                         (pointcloud_ptr
                            (locals_after_stages argv
                               (CreatePointCloudFromFile w file_in) w)))))]]
        else [])
  /\ (stages_run (calls (convert argv file_in file_out w)) = [StageOrientNormals]
      \/ stages_run (calls (convert argv file_in file_out w)) = [] ->
      filter is_PrintInfo (calls (convert argv file_in file_out w)) = []).
Proof.
  split; [intros; apply clip_processed|].
  split; [intros; apply voxel_downsample_processed|].
  split; [intros; apply estimate_normals_processed|].
  split; [intros; apply orient_normals_processed|].
  split; [apply convert_info|].
  rewrite convert_info, convert_stages. unfold info_calls.
  rewrite locals_after_stages_processed.
  destruct (clip_active argv), (voxel_active argv), (estimate_active argv),
    (orient_active argv _); cbn [app orb];
    intros [H|H]; try discriminate; reflexivity.
Qed.

End Report.

(** ** The driver *)

Section Driver.

Context {World : Type} {lib : Collaborators World}.
Implicit Types (argv : list string) (l : Locals) (w : World).

Lemma wants_help_true argv :
  wants_help argv = true
  <-> (List.length argv < 3)%nat
      \/ ProgramOptionExists argv "--help" = true
      \/ ProgramOptionExists argv "-h" = true.
Proof.
  unfold wants_help. rewrite !orb_true_iff, Z.ltb_lt.
  assert (Z.of_nat (List.length argv) < 3 <-> (List.length argv < 3)%nat) by lia.
  tauto.
Qed.

Lemma for_each_printf_calls (lines : list string) w :
  for_each lines (fun line => emit (call_printf line) tt) w
  = mkOutcome tt w (map call_printf lines).
Proof.
  induction lines as [|line lines IH]; [reflexivity|].
  cbn [for_each]. unfold bind. cbn [emit value world calls]. now rewrite IH.
Qed.

Lemma main_help argv w :
  wants_help argv = true ->
  main argv w = mkOutcome 0 w (map call_printf usage).
Proof.
  intros H. unfold main. rewrite H. unfold PrintHelp, bind.
  rewrite for_each_printf_calls. cbn [value world calls ret].
  now rewrite app_nil_r.
Qed.

Lemma main_value_no_help argv w :
  wants_help argv = false -> value (main argv w) = 1.
Proof. intros H. unfold main. rewrite H. reflexivity. Qed.

(** C6.  [main] returns 0 exactly on the usage paths: fewer than two
    positional arguments, [--help] or [-h]; there it prints the usage text
    and does nothing else.  On every other path it returns 1, whatever the
    conversion did. *)
Theorem main_exit_status argv w :
  (value (main argv w) = 0
   <-> (List.length argv < 3)%nat
       \/ ProgramOptionExists argv "--help" = true
       \/ ProgramOptionExists argv "-h" = true)
  /\ (value (main argv w) = 0 ->
      calls (main argv w) = map call_printf usage /\ world (main argv w) = w)
  /\ (value (main argv w) <> 0 -> value (main argv w) = 1).
Proof.
  rewrite <- wants_help_true.
  destruct (wants_help argv) eqn:E.
  - rewrite (main_help _ _ E). cbn [value world calls]. repeat split; auto.
    intros H. now elim H.
  - rewrite (main_value_no_help _ _ E). repeat split; try discriminate; auto.
Qed.

(** C8.  If the input path is neither an existing file nor an existing
    directory, [main] reports the error and does nothing else: after the
    verbosity level is set and the two existence tests are made, the only
    call is the error message; the file system is left as it was. *)
Theorem main_missing_input argv w :
  (3 <= List.length argv)%nat ->
  ProgramOptionExists argv "--help" = false ->
  ProgramOptionExists argv "-h" = false ->
  FileExists w (arg argv 1) = false ->
  DirectoryExists w (arg argv 1) = false ->
  main argv w
  = mkOutcome 1 w
      [call_SetVerbosityLevel (GetProgramOptionAsInt argv "--verbose" 2);
       call_FileExists (arg argv 1);
       call_DirectoryExists (arg argv 1);
       call_PrintError ("File or directory does not exist." ++ nl)%string]
  /\ filter is_work (calls (main argv w)) = [].
Proof.
  intros Hn Hh1 Hh2 Hf Hd.
  assert (E : wants_help argv = false).
  { unfold wants_help. rewrite Hh1, Hh2.
    destruct (Z.ltb_spec (Z.of_nat (List.length argv)) 3); [lia|reflexivity]. }
  assert (M : main argv w
   = mkOutcome 1 w
      [call_SetVerbosityLevel (GetProgramOptionAsInt argv "--verbose" 2);
       call_FileExists (arg argv 1);
       call_DirectoryExists (arg argv 1);
       call_PrintError ("File or directory does not exist." ++ nl)%string]).
  { unfold main. rewrite E. unfold bind, emit, query, ret.
    cbn [value world calls]. rewrite Hf. cbn [value world calls].
    rewrite Hd. reflexivity. }
  split; [exact M|]. rewrite M. reflexivity.
Qed.

End Driver.

(** ** Batches *)

Section Batch.

Context {World : Type} {lib : Collaborators World}.
Implicit Types (argv : list string) (l : Locals) (w : World).

Lemma clip_no_access argv l w : file_accesses (calls (clip argv l w)) = [].
Proof. unfold clip. now destruct (ProgramOptionExistsAny _ _). Qed.

Lemma voxel_downsample_no_access argv l w :
  file_accesses (calls (voxel_downsample argv l w)) = [].
Proof. unfold voxel_downsample. now destruct (_ <? _)%float. Qed.

Lemma estimate_normals_no_access argv l w :
  file_accesses (calls (estimate_normals argv l w)) = [].
Proof.
  unfold estimate_normals. destruct (_ <? _)%float; [|reflexivity].
  now destruct (HasNormals _).
Qed.

Lemma orient_normals_no_access argv l w :
  file_accesses (calls (orient_normals argv l w)) = [].
Proof. unfold orient_normals. now destruct (_ && _). Qed.

(** One conversion loads its input and then writes its output, and
    touches no other file. *)
Lemma convert_accesses argv file_in file_out w :
  file_accesses (calls (convert argv file_in file_out w))
  = [Loaded file_in; Written file_out].
Proof.
  rewrite convert_calls. cbv zeta. unfold stage_calls, info_calls.
  rewrite !file_accesses_app, clip_no_access, voxel_downsample_no_access,
    estimate_normals_no_access, orient_normals_no_access.
  now destruct (processed _).
Qed.

Lemma for_each_calls {A : Type} (x : A) (xs : list A) (body : A -> M World unit) w :
  calls (for_each (x :: xs) body w)
  = calls (body x w) ++ calls (for_each xs body (world (body x w))).
Proof. reflexivity. Qed.

Lemma for_each_convert_accesses argv (out : string -> string)
  (filenames : list string) w :
  file_accesses (calls (for_each filenames (fun fn => convert argv fn (out fn)) w))
  = flat_map (fun fn => [Loaded fn; Written (out fn)]) filenames.
Proof.
  revert w. induction filenames as [|fn rest IH]; intros w; [reflexivity|].
  rewrite for_each_calls, file_accesses_app, convert_accesses, IH. reflexivity.
Qed.

Lemma wants_help_false argv :
  (3 <= List.length argv)%nat ->
  ProgramOptionExists argv "--help" = false ->
  ProgramOptionExists argv "-h" = false ->
  wants_help argv = false.
Proof.
  intros Hn Hh1 Hh2. unfold wants_help. rewrite Hh1, Hh2.
  destruct (Z.ltb_spec (Z.of_nat (List.length argv)) 3); [lia|reflexivity].
Qed.

Lemma main_directory_calls argv w :
  wants_help argv = false ->
  FileExists w (arg argv 1) = false ->
  DirectoryExists w (arg argv 1) = true ->
  calls (main argv w)
  = [call_SetVerbosityLevel (GetProgramOptionAsInt argv "--verbose" 2);
     call_FileExists (arg argv 1);
     call_DirectoryExists (arg argv 1);
     call_MakeDirectoryHierarchy (arg argv 2);
     call_ListFilesInDirectory (arg argv 1)]
    ++ calls
         (for_each
            (ListFilesInDirectory (MakeDirectoryHierarchy (arg argv 2) w)
               (arg argv 1))
            (fun fn =>
               convert argv fn
                 (GetRegularizedDirectoryName (arg argv 2)
                    ++ GetFileNameWithoutDirectory fn)%string)
            (MakeDirectoryHierarchy (arg argv 2) w)).
Proof.
  intros E Hf Hd. unfold main. rewrite E. unfold bind, emit, query, update, ret.
  cbn [value world calls]. rewrite Hf. cbn [value world calls].
  rewrite Hd. cbn [value world calls app]. now rewrite app_nil_r.
Qed.

(** C7.  When the input path is an existing directory, [main] first
    creates the output directory hierarchy, then lists the input
    directory once, then converts the listed files one after the other in
    the order of the listing, each to the regularized output directory
    name followed by the file's own name. *)
Theorem main_directory_batch argv w :
  (3 <= List.length argv)%nat ->
  ProgramOptionExists argv "--help" = false ->
  ProgramOptionExists argv "-h" = false ->
  FileExists w (arg argv 1) = false ->
  DirectoryExists w (arg argv 1) = true ->
  let created := MakeDirectoryHierarchy (arg argv 2) w in
  let filenames := ListFilesInDirectory created (arg argv 1) in
  let target fn :=
    (GetRegularizedDirectoryName (arg argv 2)
       ++ GetFileNameWithoutDirectory fn)%string in
  calls (main argv w)
  = [call_SetVerbosityLevel (GetProgramOptionAsInt argv "--verbose" 2);
     call_FileExists (arg argv 1);
     call_DirectoryExists (arg argv 1);
     call_MakeDirectoryHierarchy (arg argv 2);
     call_ListFilesInDirectory (arg argv 1)]
    ++ calls (for_each filenames (fun fn => convert argv fn (target fn)) created)
  /\ file_accesses (calls (main argv w))
     = flat_map (fun fn => [Loaded fn; Written (target fn)]) filenames.
Proof.
  intros Hn Hh1 Hh2 Hf Hd created filenames target.
  pose proof (main_directory_calls argv w (wants_help_false _ Hn Hh1 Hh2) Hf Hd)
    as H.
  split; [exact H|].
  rewrite H, file_accesses_app.
  exact (for_each_convert_accesses argv target filenames created).
Qed.

End Batch.

(** ** One resolution of the options *)

Section Refinement.

Context {World : Type} {lib : Collaborators World}.
Implicit Types (argv : list string) (l : Locals) (w : World).

Lemma for_each_ext {A : Type} (xs : list A) (f g : A -> M World unit) :
  (forall x w, f x w = g x w) ->
  forall w, for_each xs f w = for_each xs g w.
Proof.
  intros H. induction xs as [|x xs IH]; intros w; [reflexivity|].
  cbn [for_each]. unfold bind. rewrite H, IH. reflexivity.
Qed.

Lemma outcome_ext {A : Type} (o o' : Outcome World A) :
  value o = value o' -> world o = world o' -> calls o = calls o' -> o = o'.
Proof. destruct o, o'. cbn. now intros -> -> ->. Qed.

Lemma ClipStage_world config pc w : world (ClipStage config pc w) = w.
Proof. unfold ClipStage. now destruct (config_clip config) as [[? ?]|]. Qed.

Lemma VoxelStage_world config pc w : world (VoxelStage config pc w) = w.
Proof. unfold VoxelStage. now destruct (config_voxel_size config). Qed.

Lemma EstimateStage_world config pc w : world (EstimateStage config pc w) = w.
Proof.
  unfold EstimateStage. destruct (config_normal_radius config); [|reflexivity].
  now destruct (HasNormals pc).
Qed.

Lemma OrientStage_world config pc w : world (OrientStage config pc w) = w.
Proof.
  unfold OrientStage. destruct (config_orient_direction config); [|reflexivity].
  now destruct (HasNormals pc).
Qed.

(** Each block of [convert] against the stage of the specification. *)
Lemma clip_resolved argv l w :
  pointcloud_ptr (value (clip argv l w))
  = fst (value (ClipStage (ResolveConfig argv) (pointcloud_ptr l) w))
  /\ processed (value (clip argv l w))
     = snd (value (ClipStage (ResolveConfig argv) (pointcloud_ptr l) w))
       || processed l
  /\ calls (clip argv l w)
     = calls (ClipStage (ResolveConfig argv) (pointcloud_ptr l) w).
Proof.
  unfold clip, ClipStage, ResolveConfig. cbn [config_clip].
  now destruct (ProgramOptionExistsAny argv clip_options).
Qed.

Lemma voxel_downsample_resolved argv l w :
  pointcloud_ptr (value (voxel_downsample argv l w))
  = fst (value (VoxelStage (ResolveConfig argv) (pointcloud_ptr l) w))
  /\ processed (value (voxel_downsample argv l w))
     = snd (value (VoxelStage (ResolveConfig argv) (pointcloud_ptr l) w))
       || processed l
  /\ calls (voxel_downsample argv l w)
     = calls (VoxelStage (ResolveConfig argv) (pointcloud_ptr l) w).
Proof.
  unfold voxel_downsample, VoxelStage, ResolveConfig. cbn [config_voxel_size].
  now destruct (0 <? _)%float.
Qed.

Lemma estimate_normals_resolved argv l w :
  pointcloud_ptr (value (estimate_normals argv l w))
  = fst (value (EstimateStage (ResolveConfig argv) (pointcloud_ptr l) w))
  /\ processed (value (estimate_normals argv l w))
     = snd (value (EstimateStage (ResolveConfig argv) (pointcloud_ptr l) w))
       || processed l
  /\ calls (estimate_normals argv l w)
     = calls (EstimateStage (ResolveConfig argv) (pointcloud_ptr l) w).
Proof.
  unfold estimate_normals, EstimateStage, ResolveConfig.
  cbn [config_normal_radius].
  destruct (0 <? _)%float; [|now idtac].
  now destruct (HasNormals _).
Qed.

Lemma orient_normals_resolved argv l w :
  pointcloud_ptr (value (orient_normals argv l w))
  = value (OrientStage (ResolveConfig argv) (pointcloud_ptr l) w)
  /\ calls (orient_normals argv l w)
     = calls (OrientStage (ResolveConfig argv) (pointcloud_ptr l) w).
Proof.
  unfold orient_normals, OrientStage, ResolveConfig.
  cbn [config_orient_direction].
  destruct (List.length _ =? 3)%nat; cbn [andb]; [|now idtac].
  destruct (HasNormals _); [|now idtac].
  cbn. now rewrite map_orient_normal.
Qed.

Lemma bind_outcome {A B : Type} (m : M World A) (f : A -> M World B) w :
  bind m f w
  = mkOutcome (value (f (value (m w)) (world (m w))))
      (world (f (value (m w)) (world (m w))))
      (calls (m w) ++ calls (f (value (m w)) (world (m w)))).
Proof. reflexivity. Qed.

Lemma RunPipeline_outcome config pc w :
  let r1 := value (ClipStage config pc w) in
  let r2 := value (VoxelStage config (fst r1) w) in
  let r3 := value (EstimateStage config (fst r2) w) in
  let cloud := value (OrientStage config (fst r3) w) in
  RunPipeline pc config w
  = mkOutcome
      (cloud,
       mkChangeSummary (List.length (points_ pc)) (List.length (points_ cloud))
         (snd r1 || snd r2 || snd r3))
      w
      (calls (ClipStage config pc w)
       ++ calls (VoxelStage config (fst r1) w)
       ++ calls (EstimateStage config (fst r2) w)
       ++ calls (OrientStage config (fst r3) w)).
Proof.
  intros r1 r2 r3 cloud.
  unfold RunPipeline. rewrite bind_outcome.
  rewrite ClipStage_world. fold r1.
  rewrite bind_outcome. rewrite VoxelStage_world. fold r2.
  rewrite bind_outcome. rewrite EstimateStage_world. fold r3.
  rewrite bind_outcome. rewrite OrientStage_world. fold cloud.
  cbn [ret value world calls]. now rewrite app_nil_r.
Qed.

(** The specification's conversion, one call after the other. *)
Lemma ConvertFile_outcome config file_in file_out w :
  let pc := CreatePointCloudFromFile w file_in in
  let r1 := value (ClipStage config pc w) in
  let r2 := value (VoxelStage config (fst r1) w) in
  let r3 := value (EstimateStage config (fst r2) w) in
  let cloud := value (OrientStage config (fst r3) w) in
  world (ConvertFile config file_in file_out w)
  = WritePointCloud file_out cloud false true w
  /\ calls (ConvertFile config file_in file_out w)
     = [call_CreatePointCloudFromFile file_in]
       ++ (calls (ClipStage config pc w)
           ++ calls (VoxelStage config (fst r1) w)
           ++ calls (EstimateStage config (fst r2) w)
           ++ calls (OrientStage config (fst r3) w))
       ++ info_calls (List.length (points_ pc))
            (mkLocals cloud (snd r1 || snd r2 || snd r3))
       ++ [call_WritePointCloud file_out cloud false true].
Proof.
  intros pc r1 r2 r3 cloud.
  unfold ConvertFile. rewrite bind_outcome.
  cbn [query value world calls]. fold pc.
  rewrite bind_outcome, RunPipeline_outcome. cbv zeta.
  fold r1. fold r2. fold r3. fold cloud.
  cbn [value world calls fst snd any_stage_executed points_before points_after].
  unfold info_calls. cbn [processed pointcloud_ptr].
  destruct (snd r1 || snd r2 || snd r3);
    rewrite bind_outcome; cbn [value world calls update emit ret];
    (split; [reflexivity|]);
    rewrite ?app_nil_r, <- ?app_assoc; reflexivity.
Qed.

Lemma convert_resolved argv file_in file_out w :
  convert argv file_in file_out w
  = ConvertFile (ResolveConfig argv) file_in file_out w.
Proof.
  pose proof (ConvertFile_outcome (ResolveConfig argv) file_in file_out w)
    as [Hw Hc]. cbv zeta in Hw, Hc.
  set (pc := CreatePointCloudFromFile w file_in) in *.
  set (l0 := mkLocals pc false).
  set (l1 := value (clip argv l0 w)).
  set (l2 := value (voxel_downsample argv l1 w)).
  set (l3 := value (estimate_normals argv l2 w)).
  destruct (clip_resolved argv l0 w) as (C1 & P1 & K1).
  destruct (voxel_downsample_resolved argv l1 w) as (C2 & P2 & K2).
  destruct (estimate_normals_resolved argv l2 w) as (C3 & P3 & K3).
  destruct (orient_normals_resolved argv l3 w) as (C4 & K4).
  fold l1 in C1, P1. fold l2 in C2, P2. fold l3 in C3, P3.
  cbn [pointcloud_ptr processed l0] in *.
  rewrite <- C1 in *. rewrite <- C2 in *. rewrite <- C3 in *.
  assert (L : locals_after_stages argv pc w = value (orient_normals argv l3 w))
    by reflexivity.
  assert (Pr : processed (locals_after_stages argv pc w)
               = snd (value (ClipStage (ResolveConfig argv) pc w))
                 || snd (value (VoxelStage (ResolveConfig argv) (pointcloud_ptr l1) w))
                 || snd (value (EstimateStage (ResolveConfig argv) (pointcloud_ptr l2) w))).
  { rewrite L, orient_normals_processed, P3, P2, P1.
    now destruct (snd _), (snd _), (snd _). }
  apply outcome_ext.
  - now destruct (value _), (value _).
  - rewrite convert_world, Hw. fold pc. rewrite L, C4. reflexivity.
  - rewrite convert_calls, Hc. cbv zeta. fold pc.
    unfold stage_calls. fold l0. fold l1. fold l2. fold l3.
    rewrite <- K1, <- K2, <- K3, <- K4.
    unfold info_calls. rewrite Pr. cbn [processed pointcloud_ptr].
    rewrite L, C4. reflexivity.
Qed.

(** C9.  For every [argv], converting a file with the options read again
    inside [convert] is the same computation as converting it with the
    configuration resolved once from [argv]; and the whole run of [main],
    for a file or a directory batch, is the run that resolves the
    configuration once, before any file, and hands it to every
    conversion. *)
Theorem options_resolved_once argv :
  (forall file_in file_out w,
     convert argv file_in file_out w
     = ConvertFile (ResolveConfig argv) file_in file_out w)
  /\ (forall w, main argv w = main_resolved_once argv w).
Proof.
  split; [intros; apply convert_resolved|].
  intros w. unfold main, main_resolved_once, Run.
  destruct (wants_help argv); [reflexivity|].
  change (config_verbosity (ResolveConfig argv))
    with (GetProgramOptionAsInt argv "--verbose" 2).
  unfold bind, emit, query, update, ret. cbn [value world calls].
  destruct (FileExists w (arg argv 1)); cbn [value world calls].
  - now rewrite convert_resolved.
  - destruct (DirectoryExists w (arg argv 1)); cbn [value world calls];
      [|reflexivity].
    rewrite (for_each_ext _ _ _
               (fun fn w' => convert_resolved argv fn _ w')).
    reflexivity.
Qed.

End Refinement.

(** ** Clip bounds *)

Module Limits.

Lemma Prim2SF_max :
  Prim2SF numeric_limits_max = S754_finite false 9007199254740991 971.
Proof. reflexivity. Qed.

Lemma Prim2SF_lowest :
  Prim2SF numeric_limits_lowest = S754_finite true 9007199254740991 971.
Proof. reflexivity. Qed.

Lemma digits2_pos_bound (m : positive) : Z.pos m < 2 ^ Z.pos (digits2_pos m).
Proof.
  induction m as [m IH|m IH|]; cbn [digits2_pos].
  - rewrite Pos2Z.inj_succ, Z.pow_succ_r by lia. lia.
  - rewrite Pos2Z.inj_succ, Z.pow_succ_r by lia. lia.
  - reflexivity.
Qed.

Lemma Zpos_lt_inv (p q : positive) : Z.pos p < Z.pos q -> (p < q)%positive.
Proof. intros H. exact H. Qed.

Lemma pow_2_53 : 2 ^ 53 = 9007199254740992.
Proof. reflexivity. Qed.

(** The mantissa and the exponent of a finite double. *)
Lemma bounded_mantissa (m : positive) (e : Z) :
  bounded prec emax m e = true -> (m <= 9007199254740991)%positive /\ e <= 971.
Proof.
  unfold bounded, canonical_mantissa. intros H.
  apply andb_prop in H. destruct H as [Hc He].
  apply Z.eqb_eq in Hc. apply Z.leb_le in He.
  split; [|exact He].
  assert (Hd : Z.pos (digits2_pos m) <= 53).
  { unfold fexp in Hc. change prec with 53 in Hc. lia. }
  pose proof (digits2_pos_bound m) as Hb.
  assert (Hp : 2 ^ Z.pos (digits2_pos m) <= 2 ^ 53)
    by (apply Z.pow_le_mono_r; lia).
  pose proof (Z.lt_le_trans _ _ _ Hb Hp) as Hm.
  clear - Hm. rewrite pow_2_53 in Hm.
  apply Pos.lt_succ_r. exact (Zpos_lt_inv _ _ Hm).
Qed.

Lemma is_finite_cases (x : float) :
  is_finite x = true ->
  match Prim2SF x with
  | S754_zero _ | S754_finite _ _ _ => True
  | _ => False
  end.
Proof.
  unfold is_finite, is_nan, is_infinity.
  rewrite !eqb_spec, abs_spec.
  change (Prim2SF infinity) with (S754_infinity false).
  destruct (Prim2SF x) as [s|s| |s m e]; auto.
  - destruct s; discriminate.
  - discriminate.
Qed.

Lemma compare_cont_Eq (p q : positive) :
  PosDef.Pos.compare_cont Eq p q = (p ?= q)%positive.
Proof. reflexivity. Qed.

Lemma SFleb_lowest (s : bool) (m : positive) (e : Z) :
  (m <= 9007199254740991)%positive -> e <= 971 ->
  SFleb (S754_finite true 9007199254740991 971) (S754_finite s m e) = true.
Proof.
  intros Vm Ve. unfold SFleb, SFcompare.
  destruct s; [|reflexivity].
  destruct (Z.compare_spec 971 e) as [E|E|E].
  - rewrite compare_cont_Eq.
    apply Pos.compare_ge_iff in Vm.
    destruct (9007199254740991 ?= m)%positive; try reflexivity. now elim Vm.
  - exfalso. apply (Z.lt_irrefl 971). eapply Z.lt_le_trans; eassumption.
  - reflexivity.
Qed.

Lemma SFleb_max (s : bool) (m : positive) (e : Z) :
  (m <= 9007199254740991)%positive -> e <= 971 ->
  SFleb (S754_finite s m e) (S754_finite false 9007199254740991 971) = true.
Proof.
  intros Vm Ve. unfold SFleb, SFcompare.
  destruct s; [reflexivity|].
  destruct (Z.compare_spec e 971) as [E|E|E].
  - rewrite compare_cont_Eq.
    apply Pos.compare_le_iff in Vm.
    destruct (m ?= 9007199254740991)%positive; try reflexivity. now elim Vm.
  - reflexivity.
  - exfalso. apply (Z.lt_irrefl 971). eapply Z.lt_le_trans; eassumption.
Qed.

(** Every finite double lies between [lowest()] and [max()]. *)
Lemma finite_within_limits (x : double) :
  is_finite x = true ->
  axis_passes numeric_limits_lowest numeric_limits_max x = true.
Proof.
  intros H. apply is_finite_cases in H.
  unfold axis_passes. rewrite !leb_spec, Prim2SF_max, Prim2SF_lowest.
  pose proof (Prim2SF_valid x) as V.
  destruct (Prim2SF x) as [s|s| |s m e]; try contradiction.
  - reflexivity.
  - cbn [SpecFloat.valid_binary] in V. apply bounded_mantissa in V.
    destruct V as [Vm Ve].
    now rewrite SFleb_lowest, SFleb_max.
Qed.

End Limits.

Section Clip.

Context {World : Type} {lib : Collaborators World}.
Implicit Types (argv : list string) (l : Locals) (w : World).

Lemma clip_bound_spec (contract : OptionContract lib) argv option default :
  GetProgramOptionAsDouble argv option default = clip_bound argv option default.
Proof.
  unfold clip_bound. destruct (ProgramOptionExists argv option) eqn:E;
    [reflexivity|]. now apply missing_double_spec.
Qed.

(** C3, as amended.  The clip stage is active exactly when at least one of
    the six axis-bound options is supplied.  When it is active, each bound
    is the value of its option when the option is supplied; a min-side
    bound whose option is absent is [lowest()], a max-side bound whose
    option is absent is [max()], each on its own.  An axis left at both
    defaults passes every finite coordinate. *)
Theorem clip_activation_and_defaults (contract : OptionContract lib) argv l w :
  (In StageClip (stages_run (calls (clip argv l w)))
   <-> exists option,
         In option clip_options /\ ProgramOptionExists argv option = true)
  /\ (In StageClip (stages_run (calls (clip argv l w))) ->
      exists min_bound max_bound,
        calls (clip argv l w) = [call_CropPointCloud min_bound max_bound]
        /\ pointcloud_ptr (value (clip argv l w))
           = CropPointCloud (pointcloud_ptr l) min_bound max_bound
               empty_PointCloud
        /\ c0 min_bound = clip_bound argv "--clip_x_min" numeric_limits_lowest
        /\ c1 min_bound = clip_bound argv "--clip_y_min" numeric_limits_lowest
        /\ c2 min_bound = clip_bound argv "--clip_z_min" numeric_limits_lowest
        /\ c0 max_bound = clip_bound argv "--clip_x_max" numeric_limits_max
        /\ c1 max_bound = clip_bound argv "--clip_y_max" numeric_limits_max
        /\ c2 max_bound = clip_bound argv "--clip_z_max" numeric_limits_max)
  /\ (forall option default,
        ProgramOptionExists argv option = false ->
        clip_bound argv option default = default)
  /\ (forall x,
        is_finite x = true ->
        axis_passes numeric_limits_lowest numeric_limits_max x = true).
Proof.
  split; [|split; [|split]].
  - rewrite clip_stages. unfold clip_active. rewrite exists_any_spec.
    destruct (existsb _ _) eqn:E.
    + apply existsb_exists in E. split; [intros _; exact E|intros _; now left].
    + split; [intros []|]. intros H. apply existsb_exists in H.
      rewrite H in E. discriminate.
  - rewrite clip_stages. unfold clip_active, clip.
    destruct (ProgramOptionExistsAny argv clip_options); [|intros []].
    intros _. do 2 eexists. split; [reflexivity|]. split; [reflexivity|].
    cbn [c0 c1 c2]. repeat split; apply (clip_bound_spec contract).
  - intros option default H. unfold clip_bound. now rewrite H.
  - apply Limits.finite_within_limits.
Qed.

End Clip.

(** ** Runs on the sample library *)

Module Examples.
Import Sample.

Local Open Scope string_scope.

Lemma option_value_missing (argv : list string) (option : string) :
  existsb (String.eqb option) argv = false -> option_value argv option = "".
Proof.
  induction argv as [|a rest IH]; [reflexivity|].
  cbn [existsb option_value]. rewrite String.eqb_sym.
  destruct (String.eqb a option); [discriminate|]. exact IH.
Qed.

(** The sample helpers keep the contract of the option-parsing helpers. *)
Lemma contract : OptionContract library.
Proof.
  split.
  - reflexivity.
  - intros argv option default H. cbn [GetProgramOptionAsDouble library] in *.
    cbn [ProgramOptionExists library] in H.
    now rewrite (option_value_missing _ _ H).
Qed.

(** Counterexample to C1 as stated: on a cloud without normals and with
    the same [--orient_normals] option, the orientation stage runs when the
    estimation stage runs and does not run when the estimation stage is
    skipped. *)
Lemma skipping_estimate_changes_orient :
  stages_run (calls (convert argv_estimate_orient "in/a.ply" "out.ply" disk))
  = [StageEstimateNormals; StageOrientNormals]
  /\ stages_run (calls (convert argv_orient "in/a.ply" "out.ply" disk)) = [].
Proof. split; vm_compute; reflexivity. Qed.

(** Counterexample to C2 as stated: with the finite normal (2, -2, 0) and
    the finite direction (2^1023, 2^1023, 0) the dot product overflows to
    NaN; the stage runs, leaves the normal as it is, and the normal does
    not satisfy dot(n, direction) >= 0 afterwards. *)
Lemma orient_leaves_nan_dot :
  In StageOrientNormals
    (stages_run (calls (orient_normals argv_orient_large (mkLocals cloud_c false) disk)))
  /\ map (fun n => (0 <=? dot n (mkVector3d 0x1p+1023 0x1p+1023 0)%float)%float)
       (normals_
          (pointcloud_ptr
             (value (orient_normals argv_orient_large (mkLocals cloud_c false) disk))))
     = [false].
Proof. split; [left; reflexivity | vm_compute; reflexivity]. Qed.

(** Counterexample to C3 as stated: with only [--clip_x_min 0] supplied the
    y axis is unconstrained, yet the point (0.5, NaN, 0) does not pass it:
    NaN is not within the default bounds, and the inclusive crop of the
    specification drops the point. *)
Lemma unconstrained_axis_drops_nan :
  calls (clip argv_clip_x_min (mkLocals cloud_d false) disk)
  = [call_CropPointCloud
       (mkVector3d 0%float numeric_limits_lowest numeric_limits_lowest)
       (mkVector3d numeric_limits_max numeric_limits_max numeric_limits_max)]
  /\ axis_passes numeric_limits_lowest numeric_limits_max nan = false
  /\ points_ (pointcloud_ptr (value (clip argv_clip_x_min (mkLocals cloud_d false) disk)))
     = [].
Proof. repeat split; vm_compute; reflexivity. Qed.

Lemma clip_activation_and_defaults_witness :
  In StageClip (stages_run (calls (clip argv_clip (mkLocals cloud_a false) disk)))
  <-> exists option,
        In option clip_options /\ ProgramOptionExists argv_clip option = true.
Proof.
  exact (proj1 (clip_activation_and_defaults contract argv_clip
                  (mkLocals cloud_a false) disk)).
Defined.

Lemma estimate_normals_policy_witness :
  (0 <? GetProgramOptionAsDouble argv_estimate_orient "--estimate_normals" 0)%float
  = true
  /\ HasNormals cloud_a = false
  /\ In (call_EstimateNormals (Some (mkVector3d 0 0 (-1))%float)
           (KDTreeSearchParamRadius 0.25%float))
        (calls (estimate_normals argv_estimate_orient (mkLocals cloud_a false) disk)).
Proof.
  split; [reflexivity|]. split; [reflexivity|].
  exact (proj1 (proj2 (proj2 (estimate_normals_policy argv_estimate_orient
                                (mkLocals cloud_a false) disk eq_refl)
                             eq_refl))).
Defined.

Lemma main_directory_batch_witness :
  FileExists disk "in" = false
  /\ DirectoryExists disk "in" = true
  /\ file_accesses (calls (main argv_batch disk))
     = [Loaded "in/a.ply"; Written "out/a.ply";
        Loaded "in/b.ply"; Written "out/b.ply"].
Proof.
  split; [reflexivity|]. split; [reflexivity|].
  exact (proj2 (main_directory_batch argv_batch disk
                  (le_S _ _ (le_S _ _ (le_S _ _ (le_S _ _ (le_n 3)))))
                  eq_refl eq_refl eq_refl eq_refl)).
Defined.

Lemma main_missing_input_witness :
  FileExists disk "nowhere" = false
  /\ DirectoryExists disk "nowhere" = false
  /\ filter is_work (calls (main argv_missing disk)) = [].
Proof.
  split; [reflexivity|]. split; [reflexivity|].
  exact (proj2 (main_missing_input argv_missing disk (le_n 3)
                  eq_refl eq_refl eq_refl eq_refl)).
Defined.

End Examples.

(** * Further properties of [convert] and [main] *)

Module IEEEZeroFacts.
Import IEEEZero.

Lemma SFmul_zero_r (x : spec_float) (s : bool) :
  nan_or_zero (SFmul prec emax x (S754_zero s)).
Proof. destruct x; exact I. Qed.

Lemma SFadd_nan_or_zero (x y : spec_float) :
  nan_or_zero x -> nan_or_zero y -> nan_or_zero (SFadd prec emax x y).
Proof.
  destruct x as [sx|sx| |sx mx ex], y as [sy|sy| |sy my ey]; try contradiction;
    intros _ _; try exact I.
  cbn [SFadd]. destruct sx, sy; exact I.
Qed.

Lemma SFltb_nan_or_zero (x : spec_float) (s : bool) :
  nan_or_zero x -> SFltb x (S754_zero s) = false.
Proof. destruct x; try contradiction; reflexivity. Qed.

Lemma is_zero_Prim2SF (x : float) :
  is_zero x = true -> exists s, Prim2SF x = S754_zero s.
Proof.
  unfold is_zero. rewrite eqb_spec.
  change (Prim2SF zero) with (S754_zero false).
  destruct (Prim2SF x) as [s|[]| |[] m e]; try discriminate.
  intros _. now exists s.
Qed.

(** The test [0 < x] fails exactly when x is at most zero or NaN. *)
Lemma SFltb_zero_false (x : spec_float) :
  SFltb (S754_zero false) x = false
  <-> SFleb x (S754_zero false) = true \/ x = S754_nan.
Proof.
  unfold SFleb, SFltb.
  destruct x as [sx|[]| |[] m e]; cbn; split; auto; try discriminate;
    intros [H|H]; discriminate.
Qed.

Lemma is_nan_Prim2SF (x : float) : is_nan x = true <-> Prim2SF x = S754_nan.
Proof.
  split; [|apply IEEEFacts.is_nan_true].
  unfold is_nan. rewrite eqb_spec. unfold SFeqb.
  destruct (Prim2SF x) as [s|s| |s m e]; try reflexivity.
  - discriminate.
  - destruct s; discriminate.
  - cbn [SFcompare]. rewrite Z.compare_refl, Limits.compare_cont_Eq.
    rewrite Pos.compare_refl. destruct s; discriminate.
Qed.

Lemma ltb_zero_false (x : float) :
  (0 <? x)%float = false <-> (x <=? 0)%float = true \/ is_nan x = true.
Proof.
  rewrite ltb_spec, leb_spec, is_nan_Prim2SF, IEEEFacts.Prim2SF_zero.
  apply SFltb_zero_false.
Qed.

End IEEEZeroFacts.

(** The dot product with a direction whose coefficients are all zero is a
    zero or NaN, never below zero. *)
Lemma dot_zero_direction (dir n : Vector3d) :
  is_zero (c0 dir) = true -> is_zero (c1 dir) = true -> is_zero (c2 dir) = true ->
  (dot n dir <? 0)%float = false.
Proof.
  intros H0 H1 H2.
  apply IEEEZeroFacts.is_zero_Prim2SF in H0, H1, H2.
  destruct H0 as [s0 H0], H1 as [s1 H1], H2 as [s2 H2].
  rewrite ltb_spec, IEEEFacts.Prim2SF_zero.
  apply IEEEZeroFacts.SFltb_nan_or_zero.
  unfold dot. rewrite !add_spec, !mul_spec, H0, H1, H2.
  unfold SF64add, SF64mul.
  repeat apply IEEEZeroFacts.SFadd_nan_or_zero;
    apply IEEEZeroFacts.SFmul_zero_r.
Qed.

Lemma orient_normal_idempotent (dir n : Vector3d) :
  orient_normal dir (orient_normal dir n) = orient_normal dir n.
Proof.
  unfold orient_normal at 1. now rewrite orient_normal_not_negative.
Qed.

Section More.

Context {World : Type} {lib : Collaborators World}.
Implicit Types (argv : list string) (l : Locals) (w : World).

(** *** The orientation loop *)

(** X1.  Orienting twice is orienting once: after the loop no normal is
    flipped by a second pass, on the loop and on the whole block; the
    block keeps the number of normals. *)
Theorem orientation_idempotent argv l w (dir : Vector3d) (normals : list Vector3d) :
  map (orient_normal dir) (map (orient_normal dir) normals)
  = map (orient_normal dir) normals
  /\ value (orient_normals argv (value (orient_normals argv l w)) w)
     = value (orient_normals argv l w)
  /\ List.length (normals_ (pointcloud_ptr (value (orient_normals argv l w))))
     = List.length (normals_ (pointcloud_ptr l)).
Proof.
  split; [|split].
  - rewrite map_map. apply map_ext. intros n. apply orient_normal_idempotent.
  - destruct (orient_active argv (pointcloud_ptr l)) eqn:E.
    + rewrite (orient_normals_runs _ _ _ E).
      set (l1 := mkLocals _ _).
      destruct (orient_active argv (pointcloud_ptr l1)) eqn:E1.
      * rewrite (orient_normals_runs _ _ _ E1). unfold l1.
        cbn [pointcloud_ptr processed set_normals points_ normals_ colors_].
        rewrite map_map.
        rewrite (map_ext _ _ (orient_normal_idempotent _)). reflexivity.
      * now rewrite (orient_normals_skips _ _ _ E1).
    + rewrite (orient_normals_skips _ _ _ E). cbn [value].
      now rewrite (orient_normals_skips _ _ _ E).
  - destruct (orient_active argv (pointcloud_ptr l)) eqn:E.
    + rewrite (orient_normals_runs _ _ _ E).
      cbn [pointcloud_ptr set_normals normals_]. apply length_map.
    + now rewrite (orient_normals_skips _ _ _ E).
Qed.

(** X2.  A direction whose three coefficients are zero (of either sign)
    flips nothing: the loop returns the normals it was given, whatever
    they are. *)
Theorem orient_zero_direction (dir : Vector3d) (normals : list Vector3d) :
  is_zero (c0 dir) = true -> is_zero (c1 dir) = true -> is_zero (c2 dir) = true ->
  map (orient_normal dir) normals = normals.
Proof.
  intros H0 H1 H2. rewrite <- (map_id normals) at 2.
  apply map_ext. intros n. unfold orient_normal.
  now rewrite (dot_zero_direction dir n H0 H1 H2).
Qed.

(** *** Sizes that do not activate a stage *)

(** X3.  The voxel-downsample and estimate-normals blocks are skipped
    exactly when the size read from the option is zero, negative or NaN;
    a skipped block makes no call and returns the locals it was given. *)
Theorem nonpositive_size_skips argv l w :
  (stages_run (calls (voxel_downsample argv l w)) = []
   <-> (GetProgramOptionAsDouble argv "--voxel_sample" 0 <=? 0)%float = true
       \/ is_nan (GetProgramOptionAsDouble argv "--voxel_sample" 0%float) = true)
  /\ (stages_run (calls (voxel_downsample argv l w)) = [] ->
      voxel_downsample argv l w = mkOutcome l w [])
  /\ (stages_run (calls (estimate_normals argv l w)) = []
      <-> (GetProgramOptionAsDouble argv "--estimate_normals" 0 <=? 0)%float = true
          \/ is_nan (GetProgramOptionAsDouble argv "--estimate_normals" 0%float)
             = true)
  /\ (stages_run (calls (estimate_normals argv l w)) = [] ->
      estimate_normals argv l w = mkOutcome l w []).
Proof.
  rewrite voxel_downsample_stages, estimate_normals_stages.
  rewrite <- !IEEEZeroFacts.ltb_zero_false.
  unfold voxel_active, estimate_active, voxel_downsample, estimate_normals.
  destruct (0 <? GetProgramOptionAsDouble argv "--voxel_sample" 0)%float;
    destruct (0 <? GetProgramOptionAsDouble argv "--estimate_normals" 0)%float;
    repeat split; intros; try reflexivity; try discriminate.
Qed.

(** *** One conversion *)

Lemma clip_only_stage_calls argv l w :
  Forall (fun c => is_stage_call c = true) (calls (clip argv l w)).
Proof.
  unfold clip. destruct (ProgramOptionExistsAny _ _); repeat constructor.
Qed.

Lemma voxel_downsample_only_stage_calls argv l w :
  Forall (fun c => is_stage_call c = true) (calls (voxel_downsample argv l w)).
Proof.
  unfold voxel_downsample. destruct (_ <? _)%float; repeat constructor.
Qed.

Lemma estimate_normals_only_stage_calls argv l w :
  Forall (fun c => is_stage_call c = true) (calls (estimate_normals argv l w)).
Proof.
  unfold estimate_normals. destruct (_ <? _)%float; [|constructor].
  destruct (HasNormals _); repeat constructor.
Qed.

Lemma orient_normals_only_stage_calls argv l w :
  Forall (fun c => is_stage_call c = true) (calls (orient_normals argv l w)).
Proof.
  unfold orient_normals. destruct (_ && _); repeat constructor.
Qed.

Lemma stage_calls_only_stage_calls argv pc w :
  Forall (fun c => is_stage_call c = true) (stage_calls argv pc w).
Proof.
  unfold stage_calls. repeat (apply Forall_app; split).
  - apply clip_only_stage_calls.
  - apply voxel_downsample_only_stage_calls.
  - apply estimate_normals_only_stage_calls.
  - apply orient_normals_only_stage_calls.
Qed.

Lemma filter_none {A : Type} (p q : A -> bool) (xs : list A) :
  (forall x, q x = true -> p x = false) ->
  Forall (fun x => q x = true) xs -> filter p xs = [].
Proof.
  intros H F. induction F as [|x xs Hx _ IH]; [reflexivity|].
  cbn [filter]. now rewrite (H x Hx).
Qed.

Lemma info_calls_shape (n : nat) l :
  Forall (fun c => is_PrintInfo c = true) (info_calls n l).
Proof. unfold info_calls. destruct (processed l); repeat constructor. Qed.

(** X4.  Whatever the options, one conversion loads its input first and
    writes its output last, in the binary compressed form; between the two
    it neither reads nor changes the file system, and the only change it
    leaves behind is that one write. *)
Theorem convert_reads_then_writes argv file_in file_out w :
  exists (middle : list Call) (pc : PointCloud),
    calls (convert argv file_in file_out w)
    = call_CreatePointCloudFromFile file_in
      :: middle ++ [call_WritePointCloud file_out pc false true]
    /\ filter touches_file_system middle = []
    /\ world (convert argv file_in file_out w)
       = WritePointCloud file_out pc false true w.
Proof.
  exists (stage_calls argv (CreatePointCloudFromFile w file_in) w
          ++ info_calls (List.length (points_ (CreatePointCloudFromFile w file_in)))
               (locals_after_stages argv (CreatePointCloudFromFile w file_in) w)).
  exists (pointcloud_ptr
            (locals_after_stages argv (CreatePointCloudFromFile w file_in) w)).
  split; [|split].
  - rewrite convert_calls. cbv zeta. cbn [app]. now rewrite <- app_assoc.
  - rewrite filter_app.
    rewrite (filter_none touches_file_system is_stage_call);
      [|now intros []|apply stage_calls_only_stage_calls].
    rewrite (filter_none touches_file_system is_PrintInfo);
      [reflexivity|now intros []|apply info_calls_shape].
  - apply convert_world.
Qed.

(** X5.  With no stage active, the conversion is a copy: the cloud that
    was loaded is written as it is, and nothing is printed. *)
Theorem convert_without_options argv file_in file_out w :
  ProgramOptionExistsAny argv clip_options = false ->
  (0 <? GetProgramOptionAsDouble argv "--voxel_sample" 0)%float = false ->
  (0 <? GetProgramOptionAsDouble argv "--estimate_normals" 0)%float = false ->
  (List.length (GetProgramOptionAsEigenVectorXd argv "--orient_normals") =? 3)%nat
  && HasNormals (CreatePointCloudFromFile w file_in) = false ->
  convert argv file_in file_out w
  = mkOutcome tt
      (WritePointCloud file_out (CreatePointCloudFromFile w file_in) false true w)
      [call_CreatePointCloudFromFile file_in;
       call_WritePointCloud file_out (CreatePointCloudFromFile w file_in)
         false true].
Proof.
  intros H1 H2 H3 H4.
  unfold convert, clip, voxel_downsample, estimate_normals, orient_normals.
  rewrite H1, H2, H3.
  unfold bind, query, ret, update. cbn [value world calls pointcloud_ptr].
  rewrite H4. reflexivity.
Qed.

End More.

Section MoreDriver.

Context {World : Type} {lib : Collaborators World}.
Implicit Types (argv : list string) (l : Locals) (w : World).

Lemma orient_normals_indep argv l w w' :
  value (orient_normals argv l w) = value (orient_normals argv l w')
  /\ calls (orient_normals argv l w) = calls (orient_normals argv l w').
Proof. unfold orient_normals. now destruct (_ && _). Qed.

Lemma locals_after_stages_indep argv pc w w' :
  locals_after_stages argv pc w = locals_after_stages argv pc w'.
Proof.
  unfold locals_after_stages.
  rewrite (proj1 (clip_indep argv _ w w')).
  rewrite (proj1 (voxel_downsample_indep argv _ w w')).
  rewrite (proj1 (estimate_normals_indep argv _ w w')).
  apply orient_normals_indep.
Qed.

Lemma stage_calls_indep argv pc w w' :
  stage_calls argv pc w = stage_calls argv pc w'.
Proof.
  unfold stage_calls.
  rewrite (proj2 (clip_indep argv _ w w')).
  rewrite (proj1 (clip_indep argv _ w w')).
  rewrite (proj2 (voxel_downsample_indep argv _ w w')).
  rewrite (proj1 (voxel_downsample_indep argv _ w w')).
  rewrite (proj2 (estimate_normals_indep argv _ w w')).
  rewrite (proj1 (estimate_normals_indep argv _ w w')).
  now rewrite (proj2 (orient_normals_indep argv _ w w')).
Qed.

Lemma written_clouds_app (l1 l2 : list Call) :
  written_clouds (l1 ++ l2) = written_clouds l1 ++ written_clouds l2.
Proof. apply filter_map_app. Qed.

Lemma filter_map_none {A B : Type} (f : A -> option B) (q : A -> bool)
  (xs : list A) :
  (forall x, q x = true -> f x = None) ->
  Forall (fun x => q x = true) xs -> filter_map f xs = [].
Proof.
  intros H F. induction F as [|x xs Hx _ IH]; [reflexivity|].
  cbn [filter_map]. now rewrite (H x Hx).
Qed.

(** X6.  A conversion depends on the options and on the cloud it loads,
    and on nothing else: two conversions under the same options that load
    equal clouds, from whatever files and file systems, run the same
    stages, make the same calls to the console and the geometry library,
    and write equal clouds. *)
Theorem convert_depends_on_cloud_only argv file_in file_out file_in' file_out'
  w w' :
  CreatePointCloudFromFile w file_in = CreatePointCloudFromFile w' file_in' ->
  stages_run (calls (convert argv file_in file_out w))
  = stages_run (calls (convert argv file_in' file_out' w'))
  /\ filter (fun c => negb (touches_file_system c))
       (calls (convert argv file_in file_out w))
     = filter (fun c => negb (touches_file_system c))
         (calls (convert argv file_in' file_out' w'))
  /\ written_clouds (calls (convert argv file_in file_out w))
     = written_clouds (calls (convert argv file_in' file_out' w')).
Proof.
  intros H. rewrite !convert_calls. cbv zeta. rewrite <- H.
  rewrite (locals_after_stages_indep argv _ w' w).
  rewrite (stage_calls_indep argv _ w' w).
  rewrite !stages_run_app, !filter_app, !written_clouds_app.
  repeat split.
Qed.

Lemma convert_no_verbosity argv file_in file_out w :
  filter is_SetVerbosityLevel (calls (convert argv file_in file_out w)) = [].
Proof.
  rewrite convert_calls. cbv zeta. rewrite !filter_app.
  cbn [filter is_SetVerbosityLevel app].
  rewrite (filter_none is_SetVerbosityLevel is_stage_call);
    [|now intros []|apply stage_calls_only_stage_calls].
  rewrite (filter_none is_SetVerbosityLevel is_PrintInfo);
    [reflexivity|now intros []|apply info_calls_shape].
Qed.

Lemma for_each_convert_no_verbosity argv (target : string -> string)
  (filenames : list string) w :
  filter is_SetVerbosityLevel
    (calls (for_each filenames (fun fn => convert argv fn (target fn)) w))
  = [].
Proof.
  revert w. induction filenames as [|fn rest IH]; intros w; [reflexivity|].
  now rewrite for_each_calls, filter_app, convert_no_verbosity, IH.
Qed.

Lemma main_file_outcome argv w :
  wants_help argv = false ->
  FileExists w (arg argv 1) = true ->
  main argv w
  = mkOutcome 1
      (world (convert argv (arg argv 1) (arg argv 2) w))
      ([call_SetVerbosityLevel (GetProgramOptionAsInt argv "--verbose" 2);
        call_FileExists (arg argv 1)]
       ++ calls (convert argv (arg argv 1) (arg argv 2) w)).
Proof.
  intros E Hf. unfold main. rewrite E. cbv iota.
  rewrite ?bind_outcome. cbn [emit query value world calls].
  rewrite Hf. cbv iota.
  rewrite ?bind_outcome. cbn [ret value world calls app].
  now rewrite app_nil_r.
Qed.

Lemma main_directory_world argv w :
  wants_help argv = false ->
  FileExists w (arg argv 1) = false ->
  DirectoryExists w (arg argv 1) = true ->
  world (main argv w)
  = world
      (for_each
         (ListFilesInDirectory (MakeDirectoryHierarchy (arg argv 2) w)
            (arg argv 1))
         (fun fn =>
            convert argv fn
              (GetRegularizedDirectoryName (arg argv 2)
                 ++ GetFileNameWithoutDirectory fn)%string)
         (MakeDirectoryHierarchy (arg argv 2) w)).
Proof.
  intros E Hf Hd. unfold main. rewrite E. cbv iota.
  rewrite ?bind_outcome. cbn [emit query value world calls].
  rewrite Hf. cbv iota.
  rewrite ?bind_outcome. cbn [query value world calls].
  rewrite Hd. cbv iota.
  rewrite ?bind_outcome. cbn [update query ret value world calls].
  reflexivity.
Qed.

(** X7.  When the input path is an existing file, [main] converts that one
    file to the output path: it loads [argv[1]], writes [argv[2]], tests,
    creates and lists no directory, and returns 1. *)
Theorem main_single_file argv w :
  (3 <= List.length argv)%nat ->
  ProgramOptionExists argv "--help" = false ->
  ProgramOptionExists argv "-h" = false ->
  FileExists w (arg argv 1) = true ->
  calls (main argv w)
  = [call_SetVerbosityLevel (GetProgramOptionAsInt argv "--verbose" 2);
     call_FileExists (arg argv 1)]
    ++ calls (convert argv (arg argv 1) (arg argv 2) w)
  /\ file_accesses (calls (main argv w))
     = [Loaded (arg argv 1); Written (arg argv 2)]
  /\ filter is_directory_call (calls (main argv w)) = []
  /\ world (main argv w) = world (convert argv (arg argv 1) (arg argv 2) w)
  /\ value (main argv w) = 1.
Proof.
  intros Hn Hh1 Hh2 Hf.
  rewrite (main_file_outcome argv w (wants_help_false _ Hn Hh1 Hh2) Hf).
  cbn [value world calls]. repeat split.
  - rewrite file_accesses_app. apply convert_accesses.
  - rewrite filter_app, convert_calls. cbv zeta. rewrite !filter_app.
    cbn [filter is_directory_call app].
    rewrite (filter_none is_directory_call is_stage_call);
      [|now intros []|apply stage_calls_only_stage_calls].
    rewrite (filter_none is_directory_call is_PrintInfo);
      [reflexivity|now intros []|apply info_calls_shape].
Qed.

(** X8.  On every run that is not a usage run, the verbosity level is set
    once, before anything else, to the value of [--verbose] (2 when the
    option gives none); no conversion sets it again. *)
Theorem main_sets_verbosity_once argv w :
  (3 <= List.length argv)%nat ->
  ProgramOptionExists argv "--help" = false ->
  ProgramOptionExists argv "-h" = false ->
  exists rest,
    calls (main argv w)
    = call_SetVerbosityLevel (GetProgramOptionAsInt argv "--verbose" 2) :: rest
    /\ filter is_SetVerbosityLevel rest = [].
Proof.
  intros Hn Hh1 Hh2.
  pose proof (wants_help_false _ Hn Hh1 Hh2) as E.
  destruct (FileExists w (arg argv 1)) eqn:Hf.
  - rewrite (main_file_outcome argv w E Hf). cbn [calls app].
    eexists. split; [reflexivity|].
    cbn [filter is_SetVerbosityLevel]. apply convert_no_verbosity.
  - destruct (DirectoryExists w (arg argv 1)) eqn:Hd.
    + rewrite (main_directory_calls argv w E Hf Hd). cbn [app].
      eexists. split; [reflexivity|].
      cbn [filter is_SetVerbosityLevel].
      apply for_each_convert_no_verbosity.
    + unfold main. rewrite E. cbv iota.
      rewrite ?bind_outcome. cbn [emit query value world calls].
      rewrite Hf. cbv iota.
      rewrite ?bind_outcome. cbn [query value world calls].
      rewrite Hd. cbn [emit ret value world calls app].
      eexists. split; reflexivity.
Qed.

(** X9.  An input directory without files: the output directory is
    created, the input directory is listed, nothing is loaded or written,
    and 1 is returned. *)
Theorem main_empty_directory argv w :
  (3 <= List.length argv)%nat ->
  ProgramOptionExists argv "--help" = false ->
  ProgramOptionExists argv "-h" = false ->
  FileExists w (arg argv 1) = false ->
  DirectoryExists w (arg argv 1) = true ->
  ListFilesInDirectory (MakeDirectoryHierarchy (arg argv 2) w) (arg argv 1) = [] ->
  main argv w
  = mkOutcome 1 (MakeDirectoryHierarchy (arg argv 2) w)
      [call_SetVerbosityLevel (GetProgramOptionAsInt argv "--verbose" 2);
       call_FileExists (arg argv 1);
       call_DirectoryExists (arg argv 1);
       call_MakeDirectoryHierarchy (arg argv 2);
       call_ListFilesInDirectory (arg argv 1)].
Proof.
  intros Hn Hh1 Hh2 Hf Hd Hl.
  pose proof (wants_help_false _ Hn Hh1 Hh2) as E.
  apply outcome_ext.
  - now rewrite (main_value_no_help _ _ E).
  - rewrite (main_directory_world argv w E Hf Hd), Hl. reflexivity.
  - rewrite (main_directory_calls argv w E Hf Hd), Hl. reflexivity.
Qed.

Lemma for_each_world {A : Type} (x : A) (xs : list A) (body : A -> M World unit) w :
  world (for_each (x :: xs) body w)
  = world (for_each xs body (world (body x w))).
Proof. reflexivity. Qed.

Lemma for_each_convert_world argv (target : string -> string)
  (filenames : list string) w :
  world (for_each filenames (fun fn => convert argv fn (target fn)) w)
  = fold_left
      (fun w' fn =>
         WritePointCloud (target fn)
           (pointcloud_ptr
              (locals_after_stages argv (CreatePointCloudFromFile w' fn) w'))
           false true w')
      filenames w.
Proof.
  revert w. induction filenames as [|fn rest IH]; intros w; [reflexivity|].
  rewrite for_each_world, convert_world. cbn [fold_left]. apply IH.
Qed.

(** X10.  In a directory batch the file system is threaded through the
    conversions: each file is loaded from the file system as the writes
    of the files before it left it, and the final file system is the
    created directory followed by one write per listed file, in the order
    of the listing. *)
Theorem main_directory_file_system argv w :
  (3 <= List.length argv)%nat ->
  ProgramOptionExists argv "--help" = false ->
  ProgramOptionExists argv "-h" = false ->
  FileExists w (arg argv 1) = false ->
  DirectoryExists w (arg argv 1) = true ->
  world (main argv w)
  = fold_left
      (fun w' fn =>
         WritePointCloud
           (GetRegularizedDirectoryName (arg argv 2)
              ++ GetFileNameWithoutDirectory fn)%string
           (pointcloud_ptr
              (locals_after_stages argv (CreatePointCloudFromFile w' fn) w'))
           false true w')
      (ListFilesInDirectory (MakeDirectoryHierarchy (arg argv 2) w) (arg argv 1))
      (MakeDirectoryHierarchy (arg argv 2) w).
Proof.
  intros Hn Hh1 Hh2 Hf Hd.
  rewrite (main_directory_world argv w (wants_help_false _ Hn Hh1 Hh2) Hf Hd).
  apply (for_each_convert_world argv
           (fun fn => (GetRegularizedDirectoryName (arg argv 2)
                         ++ GetFileNameWithoutDirectory fn)%string)).
Qed.

End MoreDriver.

(** X11.  The count that the informational line prints is the count
    itself for fewer than 2^31 points; in general it is the count reduced
    to the 32-bit two's complement range. *)
Theorem cast_int_range (z : Z) :
  - 2 ^ 31 <= cast_int z < 2 ^ 31
  /\ (cast_int z - z) mod 2 ^ 32 = 0
  /\ (- 2 ^ 31 <= z < 2 ^ 31 -> cast_int z = z)
  /\ (forall n : nat, Z.of_nat n < 2 ^ 31 -> cast_int (Z.of_nat n) = Z.of_nat n).
Proof.
  unfold cast_int.
  assert (H32 : 0 < 2 ^ 32) by reflexivity.
  pose proof (Z.mod_pos_bound (z + 2 ^ 31) (2 ^ 32) H32) as B.
  pose proof (Z.div_mod (z + 2 ^ 31) (2 ^ 32) ltac:(lia)) as D.
  assert (S : forall x, - 2 ^ 31 <= x < 2 ^ 31 ->
                        (x + 2 ^ 31) mod 2 ^ 32 - 2 ^ 31 = x).
  { intros x Hx. rewrite Z.mod_small; lia. }
  repeat split.
  - lia.
  - lia.
  - replace ((z + 2 ^ 31) mod 2 ^ 32 - 2 ^ 31 - z)
      with (- ((z + 2 ^ 31) / 2 ^ 32) * 2 ^ 32) by lia.
    apply Z.mod_mul. lia.
  - apply S.
  - intros n Hn. apply S. lia.
Qed.


(** ** Further runs on the sample library *)

Module MoreExamples.
Import Sample.

Local Open Scope string_scope.

Lemma orient_zero_direction_witness :
  map (orient_normal (mkVector3d 0 neg_zero 0)%float) (normals_ cloud_b)
  = normals_ cloud_b.
Proof.
  exact (orient_zero_direction (mkVector3d 0 neg_zero 0)%float (normals_ cloud_b)
           eq_refl eq_refl eq_refl).
Defined.

Lemma convert_without_options_witness :
  convert argv_plain "in/b.ply" "out.ply" disk
  = mkOutcome tt (WritePointCloud "out.ply" cloud_b false true disk)
      [call_CreatePointCloudFromFile "in/b.ply";
       call_WritePointCloud "out.ply" cloud_b false true].
Proof.
  exact (convert_without_options argv_plain "in/b.ply" "out.ply" disk
           eq_refl eq_refl eq_refl eq_refl).
Defined.

Lemma convert_depends_on_cloud_only_witness :
  written_clouds (calls (convert argv_batch "in/b.ply" "x.ply" disk))
  = written_clouds (calls (convert argv_batch "in/b.ply" "y.ply" disk_with_empty)).
Proof.
  exact (proj2 (proj2 (convert_depends_on_cloud_only argv_batch
                         "in/b.ply" "x.ply" "in/b.ply" "y.ply"
                         disk disk_with_empty eq_refl))).
Defined.

Lemma main_single_file_witness :
  FileExists disk "in/b.ply" = true
  /\ file_accesses (calls (main argv_plain disk))
     = [Loaded "in/b.ply"; Written "out.ply"].
Proof.
  split; [reflexivity|].
  exact (proj1 (proj2 (main_single_file argv_plain disk (le_n 3)
                         eq_refl eq_refl eq_refl))).
Defined.

Lemma main_sets_verbosity_once_witness :
  exists rest,
    calls (main argv_batch disk) = call_SetVerbosityLevel 2 :: rest
    /\ filter is_SetVerbosityLevel rest = [].
Proof.
  exact (main_sets_verbosity_once argv_batch disk
           (le_S _ _ (le_S _ _ (le_S _ _ (le_S _ _ (le_n 3)))))
           eq_refl eq_refl).
Defined.

Lemma main_empty_directory_witness :
  ListFilesInDirectory (MakeDirectoryHierarchy "out" disk_with_empty) "empty" = []
  /\ world (main argv_empty_batch disk_with_empty)
     = MakeDirectoryHierarchy "out" disk_with_empty.
Proof.
  split; [reflexivity|].
  exact (f_equal world
           (main_empty_directory argv_empty_batch disk_with_empty (le_n 3)
              eq_refl eq_refl eq_refl eq_refl eq_refl)).
Defined.

Lemma main_directory_file_system_witness :
  world (main argv_batch disk)
  = fold_left
      (fun w' fn =>
         WritePointCloud ("out/" ++ basename fn)
           (pointcloud_ptr
              (locals_after_stages argv_batch (CreatePointCloudFromFile w' fn) w'))
           false true w')
      ["in/a.ply"; "in/b.ply"]
      (MakeDirectoryHierarchy "out" disk).
Proof.
  exact (main_directory_file_system argv_batch disk
           (le_S _ _ (le_S _ _ (le_S _ _ (le_S _ _ (le_n 3)))))
           eq_refl eq_refl eq_refl eq_refl).
Defined.

End MoreExamples.
